(** * Weather by CEP: the Edge service (service-a) and the Orchestration
      service (service-b)

    A shallow embedding of [service-a/main.go] and [service-b/main.go].

    - Go strings are byte sequences: [string] of the Standard Library
      (an [ascii] is one byte).
    - [float64] is the kernel's binary64 ([PrimFloat.float]).
    - The handlers mutate an [http.ResponseWriter] and emit tracing spans:
      both live in an explicit state, threaded by a small state monad.
    - Everything outside the two processes (environment variables, the
      outbound HTTP round trips, a few library routines that are numeric
      algorithms of their own) is a field of the record [Env]. *)

From Stdlib Require Import Bool Ascii String List ZArith NArith Lia.
From Stdlib Require Import DecimalString.
From Stdlib Require Import PrimFloat.
Import ListNotations.

Local Open Scope string_scope.

(** ** Bytes *)

Definition byte_in (lo hi c : ascii) : bool :=
  (N_of_ascii lo <=? N_of_ascii c)%N && (N_of_ascii c <=? N_of_ascii hi)%N.

(** The quotation mark, byte 0x22. *)
Definition dquote : ascii := "034".

(** The Perl class [\d] of Go's regexp package: ASCII [0-9] only. *)
Definition isDigit (c : ascii) : bool := byte_in "0" "9" c.

Fixpoint allb (p : ascii -> bool) (s : string) : bool :=
  match s with
  | EmptyString => true
  | String c s' => p c && allb p s'
  end.

(** ** package regexp (the fragment the services use)

    [regexp.MatchString(pattern, s)] reports whether [s] contains any match
    of the pattern: the search is not anchored, the pattern's own [^] and
    [$] anchor it.  Without the [m] flag, [^] is the beginning of the text
    and [$] is the end of the text (not "before a final newline").

    The matcher works on bytes.  Go's matcher steps through UTF-8 runes;
    a rune of the class [\d] is one byte in ['0'..'9'], and any other byte
    begins (or is) a rune outside [\d], so on the syntax below both agree. *)
Module regexp.

Inductive Regexp : Type :=
| BeginText                         (* ^ *)
| EndText                           (* $ *)
| PerlDigit                         (* \d *)
| Concat (r1 r2 : Regexp)           (* r1 r2 *)
| Repeat (n : nat) (r : Regexp).    (* r{n} *)

(** Backtracking matcher in continuation style; [pos] is the byte offset
    of [rest] in the text. *)
Fixpoint matchAt (r : Regexp) (pos : nat) (rest : string)
         (k : nat -> string -> bool) {struct r} : bool :=
  match r with
  | BeginText => if Nat.eqb pos 0 then k pos rest else false
  | EndText => match rest with EmptyString => k pos rest | _ => false end
  | PerlDigit =>
      match rest with
      | String c rest' => if isDigit c then k (S pos) rest' else false
      | EmptyString => false
      end
  | Concat r1 r2 => matchAt r1 pos rest (fun p t => matchAt r2 p t k)
  | Repeat n r1 =>
      (fix rep (n : nat) (p : nat) (t : string) {struct n} : bool :=
         match n with
         | O => k p t
         | S n' => matchAt r1 p t (fun p' t' => rep n' p' t')
         end) n pos rest
  end.

(** Try every start offset, leftmost first. *)
Fixpoint searchFrom (r : Regexp) (pos : nat) (rest : string) : bool :=
  matchAt r pos rest (fun _ _ => true)
  || match rest with
     | EmptyString => false
     | String _ rest' => searchFrom r (S pos) rest'
     end.

Definition MatchString (r : Regexp) (s : string) : bool := searchFrom r 0 s.

End regexp.

(** ** package unicode/utf8 (byte level)

    [utf8.DecodeRune] either accepts a well-formed sequence of 1 to 4 bytes
    or reports [RuneError] with width 1.  The callers below only copy the
    accepted bytes or replace the rejected byte, so the decoder returns the
    width. *)
Module utf8.

Definition cont (c : ascii) : bool := byte_in "128" "191" c.

(** U+FFFD, encoded. *)
Definition replacement : string :=
  String "239" (String "191" (String "189" EmptyString)).

(** Width of the well-formed sequence at the head of [c :: s], or 0 when
    the head byte is rejected (Go: [RuneError], width 1). *)
Definition width (c : ascii) (s : string) : nat :=
  if (N_of_ascii c <? 128)%N then 1
  else match s with
  | EmptyString => 0
  | String c2 s2 =>
      if byte_in "194" "223" c then (if cont c2 then 2 else 0)
      else
        let second_ok :=
          if Ascii.eqb c "224" then byte_in "160" "191" c2
          else if Ascii.eqb c "237" then byte_in "128" "159" c2
          else if byte_in "225" "239" c then cont c2
          else if Ascii.eqb c "240" then byte_in "144" "191" c2
          else if byte_in "241" "243" c then cont c2
          else if Ascii.eqb c "244" then byte_in "128" "143" c2
          else false in
        if negb second_ok then 0
        else match s2 with
        | EmptyString => 0
        | String c3 s3 =>
            if negb (cont c3) then 0
            else if byte_in "224" "239" c then 3
            else match s3 with
            | EmptyString => 0
            | String c4 _ => if cont c4 then 4 else 0
            end
        end
  end.

(** [utf8.EncodeRune]: surrogates and values above U+10FFFF are encoded
    as U+FFFD. *)
Definition EncodeRune (r : N) : string :=
  let b (n : N) := String (ascii_of_N n) EmptyString in
  (if r <? 128 then b r
   else if r <? 2048 then b (192 + r / 64) ++ b (128 + r mod 64)
   else if (55296 <=? r) && (r <? 57344) then replacement
   else if r <? 65536 then
     b (224 + r / 4096) ++ b (128 + (r / 64) mod 64) ++ b (128 + r mod 64)
   else if r <? 1114112 then
     b (240 + r / 262144) ++ b (128 + (r / 4096) mod 64)
       ++ b (128 + (r / 64) mod 64) ++ b (128 + r mod 64)
   else replacement)%N.

End utf8.

(** ** package encoding/json: syntax

    The scanner accepts the grammar of RFC 8259 and nothing more; a string
    literal is unquoted as [unquoteBytes] does it (escapes decoded, UTF-16
    surrogate pairs combined, ill-formed UTF-8 replaced by U+FFFD). *)
Module json.

#[warnings="-register-all"]
Inductive Value : Type :=
| Null
| Bool (b : bool)
| Number (literal : string)
| Str (s : string)
| Array (elems : list Value)
| Object (members : list (string * Value)).

Definition isSpace (c : ascii) : bool :=
  Ascii.eqb c " " || Ascii.eqb c "009" || Ascii.eqb c "013" || Ascii.eqb c "010".

Fixpoint skipSpace (s : string) : string :=
  match s with
  | String c s' => if isSpace c then skipSpace s' else s
  | EmptyString => s
  end.

Definition hexval (c : ascii) : option N :=
  if byte_in "0" "9" c then Some (N_of_ascii c - 48)%N
  else if byte_in "a" "f" c then Some (N_of_ascii c - 87)%N
  else if byte_in "A" "F" c then Some (N_of_ascii c - 55)%N
  else None.

(** [getu4] on the four bytes after a backslash-u. *)
Definition getu4 (h1 h2 h3 h4 : ascii) : option N :=
  match hexval h1, hexval h2, hexval h3, hexval h4 with
  | Some a, Some b, Some c, Some d => Some (a * 4096 + b * 256 + c * 16 + d)%N
  | _, _, _, _ => None
  end.

Definition isSurrogate (r : N) : bool := ((55296 <=? r) && (r <? 57344))%N.

(** [utf16.DecodeRune], [None] standing for U+FFFD. *)
Definition decodeSurrogates (r1 r2 : N) : option N :=
  if ((55296 <=? r1) && (r1 <? 56320) && (56320 <=? r2) && (r2 <? 57344))%N
  then Some ((r1 - 55296) * 1024 + (r2 - 56320) + 65536)%N
  else None.

Definition simpleEscape (e : ascii) : option ascii :=
  if Ascii.eqb e dquote then Some dquote
  else if Ascii.eqb e "\" then Some "\"%char
  else if Ascii.eqb e "/" then Some "/"%char
  else if Ascii.eqb e "b" then Some "008"%char
  else if Ascii.eqb e "f" then Some "012"%char
  else if Ascii.eqb e "n" then Some "010"%char
  else if Ascii.eqb e "r" then Some "013"%char
  else if Ascii.eqb e "t" then Some "009"%char
  else None.

Definition emit (out : string) (r : option (string * string))
  : option (string * string) :=
  match r with
  | Some (d, rest) => Some (out ++ d, rest)
  | None => None
  end.

(** The text after an opening quote: the unquoted contents and what
    follows the closing quote.  [None] is a syntax error (a control byte,
    a bad escape, or no closing quote). *)
Fixpoint scanString (s : string) : option (string * string) :=
  match s with
  | EmptyString => None
  | String c s1 =>
      if Ascii.eqb c dquote then Some (EmptyString, s1)
      else if (N_of_ascii c <? 32)%N then None
      else if Ascii.eqb c "\" then
        match s1 with
        | EmptyString => None
        | String e s2 =>
            if Ascii.eqb e "u" then
              match s2 with
              | String h1 (String h2 (String h3 (String h4 s6))) =>
                  match getu4 h1 h2 h3 h4 with
                  | None => None
                  | Some rr =>
                      if isSurrogate rr then
                        match s6 with
                        | String b (String u (String k1 (String k2
                            (String k3 (String k4 s12))))) =>
                            match
                              (if Ascii.eqb b "\" && Ascii.eqb u "u"
                               then getu4 k1 k2 k3 k4 else None)
                            with
                            | Some rr1 =>
                                match decodeSurrogates rr rr1 with
                                | Some dec =>
                                    emit (utf8.EncodeRune dec) (scanString s12)
                                | None =>
                                    emit utf8.replacement (scanString s6)
                                end
                            | None => emit utf8.replacement (scanString s6)
                            end
                        | _ => emit utf8.replacement (scanString s6)
                        end
                      else emit (utf8.EncodeRune rr) (scanString s6)
                  end
              | _ => None
              end
            else
              match simpleEscape e with
              | Some x => emit (String x EmptyString) (scanString s2)
              | None => None
              end
        end
      else
        match utf8.width c s1 with
        | 1 => emit (String c EmptyString) (scanString s1)
        | 2 =>
            match s1 with
            | String c2 s2 =>
                emit (String c (String c2 EmptyString)) (scanString s2)
            | _ => None
            end
        | 3 =>
            match s1 with
            | String c2 (String c3 s3) =>
                emit (String c (String c2 (String c3 EmptyString)))
                     (scanString s3)
            | _ => None
            end
        | 4 =>
            match s1 with
            | String c2 (String c3 (String c4 s4)) =>
                emit (String c (String c2 (String c3 (String c4 EmptyString))))
                     (scanString s4)
            | _ => None
            end
        | _ => emit utf8.replacement (scanString s1)
        end
  end.

Fixpoint spanDigits (s : string) : string * string :=
  match s with
  | String c s' =>
      if isDigit c then let (ds, r) := spanDigits s' in (String c ds, r)
      else (EmptyString, s)
  | EmptyString => (EmptyString, s)
  end.

(** A number literal at the head of [s]: the literal and the rest. *)
Definition scanNumber (s : string) : option (string * string) :=
  let (sign, s1) :=
    match s with
    | String c t => if Ascii.eqb c "-" then ("-", t) else ("", s)
    | EmptyString => ("", s)
    end in
  let int :=
    match s1 with
    | String c t =>
        if Ascii.eqb c "0" then Some ("0", t)
        else if byte_in "1" "9" c then
          let (ds, r) := spanDigits t in Some (String c ds, r)
        else None
    | EmptyString => None
    end in
  match int with
  | None => None
  | Some (ip, s2) =>
      let frac :=
        match s2 with
        | String c t =>
            if Ascii.eqb c "." then
              let (ds, r) := spanDigits t in
              match ds with
              | EmptyString => None
              | _ => Some (String c ds, r)
              end
            else Some ("", s2)
        | EmptyString => Some ("", s2)
        end in
      match frac with
      | None => None
      | Some (fp, s3) =>
          let exp :=
            match s3 with
            | String c t =>
                if Ascii.eqb c "e" || Ascii.eqb c "E" then
                  let (sg, t') :=
                    match t with
                    | String g u =>
                        if Ascii.eqb g "+" || Ascii.eqb g "-"
                        then (String g EmptyString, u) else ("", t)
                    | EmptyString => ("", t)
                    end in
                  let (ds, r) := spanDigits t' in
                  match ds with
                  | EmptyString => None
                  | _ => Some (String c (sg ++ ds), r)
                  end
                else Some ("", s3)
            | EmptyString => Some ("", s3)
            end in
          match exp with
          | None => None
          | Some (ep, s4) => Some (sign ++ ip ++ fp ++ ep, s4)
          end
      end
  end.

(** [expect lit s]: [s] without its prefix [lit]. *)
Fixpoint expect (lit s : string) : option string :=
  match lit, s with
  | EmptyString, _ => Some s
  | String a lit', String b s' => if Ascii.eqb a b then expect lit' s' else None
  | String _ _, EmptyString => None
  end.

(** The scanner refuses more than [maxNestingDepth] open brackets. *)
Definition maxNestingDepth : N := 10000.

(** One value at the head of [s] (after white space) and the rest of the
    text.  [depth] counts the brackets that are open; [fuel] bounds the
    recursion (see [fuelFor]). *)
Fixpoint parseValue (fuel : nat) (depth : N) (s : string) {struct fuel}
  : option (Value * string) :=
  match fuel with
  | O => None
  | S fuel' =>
      match skipSpace s with
      | EmptyString => None
      | String c r =>
          if Ascii.eqb c "{" then
            if (maxNestingDepth <? depth + 1)%N then None
            else
              match skipSpace r with
              | String c' r' =>
                  if Ascii.eqb c' "}" then Some (Object [], r')
                  else
                    match parseMembers fuel' (depth + 1)%N (String c' r') with
                    | Some (ms, r'') => Some (Object ms, r'')
                    | None => None
                    end
              | EmptyString => None
              end
          else if Ascii.eqb c "[" then
            if (maxNestingDepth <? depth + 1)%N then None
            else
              match skipSpace r with
              | String c' r' =>
                  if Ascii.eqb c' "]" then Some (Array [], r')
                  else
                    match parseElements fuel' (depth + 1)%N (String c' r') with
                    | Some (vs, r'') => Some (Array vs, r'')
                    | None => None
                    end
              | EmptyString => None
              end
          else if Ascii.eqb c dquote then
            match scanString r with
            | Some (str, r') => Some (Str str, r')
            | None => None
            end
          else if Ascii.eqb c "t" then
            option_map (fun r' => (Bool true, r')) (expect "rue" r)
          else if Ascii.eqb c "f" then
            option_map (fun r' => (Bool false, r')) (expect "alse" r)
          else if Ascii.eqb c "n" then
            option_map (fun r' => (Null, r')) (expect "ull" r)
          else
            match scanNumber (String c r) with
            | Some (lit, r') => Some (Number lit, r')
            | None => None
            end
      end
  end

(** [key : value] pairs up to the closing brace; [s] starts (after white
    space) at the quote of a key. *)
with parseMembers (fuel : nat) (depth : N) (s : string) {struct fuel}
  : option (list (string * Value) * string) :=
  match fuel with
  | O => None
  | S fuel' =>
      match skipSpace s with
      | String q r =>
          if negb (Ascii.eqb q dquote) then None
          else
            match scanString r with
            | None => None
            | Some (key, r1) =>
                match skipSpace r1 with
                | String colon r2 =>
                    if negb (Ascii.eqb colon ":") then None
                    else
                      match parseValue fuel' depth r2 with
                      | None => None
                      | Some (v, r3) =>
                          match skipSpace r3 with
                          | String d r4 =>
                              if Ascii.eqb d "}" then Some ([(key, v)], r4)
                              else if Ascii.eqb d "," then
                                match parseMembers fuel' depth r4 with
                                | Some (ms, r5) => Some ((key, v) :: ms, r5)
                                | None => None
                                end
                              else None
                          | EmptyString => None
                          end
                      end
                | EmptyString => None
                end
            end
      | EmptyString => None
      end
  end

(** Elements up to the closing bracket. *)
with parseElements (fuel : nat) (depth : N) (s : string) {struct fuel}
  : option (list Value * string) :=
  match fuel with
  | O => None
  | S fuel' =>
      match parseValue fuel' depth s with
      | None => None
      | Some (v, r1) =>
          match skipSpace r1 with
          | String d r2 =>
              if Ascii.eqb d "]" then Some ([v], r2)
              else if Ascii.eqb d "," then
                match parseElements fuel' depth r2 with
                | Some (vs, r3) => Some (v :: vs, r3)
                | None => None
                end
              else None
          | EmptyString => None
          end
      end
  end.

(** Fuel that no parse of [s] exhausts: a value spends one unit before it
    consumes a byte only at the first element of an array. *)
Definition fuelFor (s : string) : nat := S (2 * String.length s).

(** What a [Decoder] reads from a stream: the first value; the bytes
    after it stay unread. *)
Definition readValue (data : string) : option Value :=
  option_map fst (parseValue (fuelFor data) 0 data).

(** What [Unmarshal] accepts: one value and nothing but white space
    after it. *)
Definition checkValid (data : string) : option Value :=
  match parseValue (fuelFor data) 0 data with
  | Some (v, rest) =>
      match skipSpace rest with
      | EmptyString => Some v
      | String _ _ => None
      end
  | None => None
  end.

End json.

(** Go's [error] values the services can meet. *)
Inductive error : Type :=
| SyntaxError
    (* *json.SyntaxError, io.EOF, io.ErrUnexpectedEOF *)
| UnmarshalTypeError (value : string)
| UnsupportedValueError
| Errorf (msg : string)
| NetError (msg : string).

(** ** package encoding/json: decoding into structs, encoding *)
Module jsonrt.
Import json.

(** [d.saveError]: the first error is kept. *)
Definition saveError (saved new : option error) : option error :=
  match saved with
  | Some _ => saved
  | None => new
  end.

Definition upper (c : ascii) : ascii :=
  if byte_in "a" "z" c then ascii_of_N (N_of_ascii c - 32) else c.

(** A key selects a field when it is the field's name up to case.  The
    names of the structs below are ASCII and hold neither [k] nor [s],
    the two letters with a fold partner outside ASCII, so the folding
    compares bytes. *)
Fixpoint equalFold (a b : string) : bool :=
  match a, b with
  | EmptyString, EmptyString => true
  | String x a', String y b' => Ascii.eqb (upper x) (upper y) && equalFold a' b'
  | _, _ => false
  end.

(** A field of a struct of type [T]: its JSON name and how a value is
    stored into it. *)
Definition Field (T : Type) : Type :=
  (string * (Value -> T -> T * option error))%type.

Fixpoint findField {T} (fields : list (Field T)) (key : string)
  : option (Field T) :=
  match fields with
  | [] => None
  | f :: fields' => if equalFold (fst f) key then Some f else findField fields' key
  end.

Definition typeError (v : Value) : error :=
  match v with
  | Null => UnmarshalTypeError "null"
  | Bool _ => UnmarshalTypeError "bool"
  | Number _ => UnmarshalTypeError "number"
  | Str _ => UnmarshalTypeError "string"
  | Array _ => UnmarshalTypeError "array"
  | Object _ => UnmarshalTypeError "object"
  end.

(** [d.object] on a struct: the members in order, a later duplicate
    overwriting an earlier one, an unknown key skipped, a value of the
    wrong type recorded and skipped. *)
Definition object {T} (fields : list (Field T))
           (members : list (string * Value)) (t : T) : T * option error :=
  fold_left
    (fun (acc : T * option error) (m : string * Value) =>
       match findField fields (fst m) with
       | None => acc
       | Some f =>
           let (t', e) := snd f (snd m) (fst acc) in
           (t', saveError (snd acc) e)
       end)
    members (t, None).

(** [d.value] into a struct; [null] leaves it untouched. *)
Definition intoStruct {T} (fields : list (Field T)) (v : Value) (t : T)
  : T * option error :=
  match v with
  | Object members => object fields members t
  | Null => (t, None)
  | _ => (t, Some (typeError v))
  end.

Definition stringField {T} (set : string -> T -> T) (v : Value) (t : T)
  : T * option error :=
  match v with
  | Str s => (set s t, None)
  | Null => (t, None)
  | _ => (t, Some (typeError v))
  end.

Definition float64Field {T} (ParseFloat : string -> option float)
           (set : float -> T -> T) (v : Value) (t : T) : T * option error :=
  match v with
  | Number lit =>
      match ParseFloat lit with
      | Some f => (set f t, None)
      | None => (t, Some (UnmarshalTypeError ("number " ++ lit)))
      end
  | Null => (t, None)
  | _ => (t, Some (typeError v))
  end.

Definition structField {T U} (fields : list (Field U))
           (get : T -> U) (set : U -> T -> T) (v : Value) (t : T)
  : T * option error :=
  let (u, e) := intoStruct fields v (get t) in (set u t, e).

(** [json.NewDecoder(r).Decode(&t)] on a stream holding [data]. *)
Definition Decode {T} (fields : list (Field T)) (data : string) (t : T)
  : T * option error :=
  match readValue data with
  | None => (t, Some SyntaxError)
  | Some v => intoStruct fields v t
  end.

(** [json.Unmarshal(data, &t)]. *)
Definition Unmarshal {T} (fields : list (Field T)) (data : string) (t : T)
  : T * option error :=
  match checkValid data with
  | None => (t, Some SyntaxError)
  | Some v => intoStruct fields v t
  end.

(** *** Encoding *)

Definition hexDigit (n : N) : ascii :=
  if (n <? 10)%N then ascii_of_N (48 + n) else ascii_of_N (87 + n).

(** [htmlSafeSet]: printable ASCII (and DEL) but for the quotation mark,
    the backslash, the ampersand and the angle brackets. *)
Definition htmlSafe (c : ascii) : bool :=
  byte_in " " "127" c
  && negb (Ascii.eqb c dquote || Ascii.eqb c "\" || Ascii.eqb c "&"
           || Ascii.eqb c "<" || Ascii.eqb c ">").

Definition escapeByte (c : ascii) : string :=
  if Ascii.eqb c "\" || Ascii.eqb c dquote then String "\" (String c EmptyString)
  else if Ascii.eqb c "008" then "\b"
  else if Ascii.eqb c "012" then "\f"
  else if Ascii.eqb c "010" then "\n"
  else if Ascii.eqb c "013" then "\r"
  else if Ascii.eqb c "009" then "\t"
  else "\u00" ++ String (hexDigit (N_of_ascii c / 16)) EmptyString
              ++ String (hexDigit (N_of_ascii c mod 16)) EmptyString.

(** The contents of an encoded string ([appendString] with HTML escaping
    on, as [Marshal] and [Encoder] have it; the short escapes for
    backspace and form feed are those of Go 1.22 and later). *)
Fixpoint escapeString (s : string) : string :=
  match s with
  | EmptyString => EmptyString
  | String c s1 =>
      if (N_of_ascii c <? 128)%N then
        (if htmlSafe c then String c EmptyString else escapeByte c)
          ++ escapeString s1
      else
        match utf8.width c s1 with
        | 2 =>
            match s1 with
            | String c2 s2 => String c (String c2 (escapeString s2))
            | _ => EmptyString
            end
        | 3 =>
            match s1 with
            | String c2 (String c3 s3) =>
                (if Ascii.eqb c "226" && Ascii.eqb c2 "128"
                    && (Ascii.eqb c3 "168" || Ascii.eqb c3 "169")
                 then "\u202" ++ String (hexDigit (N_of_ascii c3 mod 16)) EmptyString
                 else String c (String c2 (String c3 EmptyString)))
                  ++ escapeString s3
            | _ => EmptyString
            end
        | 4 =>
            match s1 with
            | String c2 (String c3 (String c4 s4)) =>
                String c (String c2 (String c3 (String c4 (escapeString s4))))
            | _ => EmptyString
            end
        | _ => "\ufffd" ++ escapeString s1
        end
  end.

Definition q : string := String dquote EmptyString.

Definition encodeString (s : string) : string := q ++ escapeString s ++ q.

(** [name : value], the name quoted. *)
Definition member (name value : string) : string := q ++ name ++ q ++ ":" ++ value.

Definition isFinite (f : float) : bool :=
  negb (PrimFloat.is_nan f || PrimFloat.is_infinity f).

End jsonrt.

(** ** package net/url *)
Module url.

Definition upperhex (n : N) : ascii :=
  if (n <? 10)%N then ascii_of_N (48 + n) else ascii_of_N (55 + n).

(** [shouldEscape(c, encodeQueryComponent)] *)
Definition shouldEscape (c : ascii) : bool :=
  negb (byte_in "a" "z" c || byte_in "A" "Z" c || byte_in "0" "9" c
        || Ascii.eqb c "-" || Ascii.eqb c "_" || Ascii.eqb c "."
        || Ascii.eqb c "~").

Fixpoint QueryEscape (s : string) : string :=
  match s with
  | EmptyString => EmptyString
  | String c s' =>
      (if Ascii.eqb c " " then "+"
       else if shouldEscape c then
         String "%" (String (upperhex (N_of_ascii c / 16))
                       (String (upperhex (N_of_ascii c mod 16)) EmptyString))
       else String c EmptyString) ++ QueryEscape s'
  end.

End url.

(** ** package net/http, package os, OpenTelemetry: what the handlers see *)

Module http.

Definition MethodGet : string := "GET".
Definition MethodPost : string := "POST".

Definition StatusOK : Z := 200.
Definition StatusNotFound : Z := 404.
Definition StatusMethodNotAllowed : Z := 405.
Definition StatusUnprocessableEntity : Z := 422.
Definition StatusInternalServerError : Z := 500.
Definition StatusServiceUnavailable : Z := 503.

Definition Header : Type := list (string * string).

(** [h.Set(key, value)] *)
Definition Set_ (key value : string) (h : Header) : Header :=
  (key, value) :: filter (fun kv => negb (String.eqb (fst kv) key)) h.

Record Request : Type := mkRequest {
  Method : string;
  URL : string;
  ReqHeader : Header;
  Body : string
}.

(** A response as a client holds it: [RespBody] is what [io.ReadAll]
    returns for [resp.Body], the bytes read and the error that stopped
    the reading, if any. *)
Record Response : Type := mkResponse {
  StatusCode : Z;
  RespBody : string * option error
}.

(** The state behind an [http.ResponseWriter]. *)
Record ResponseWriter : Type := mkWriter {
  header : Header;
  status : option Z;
  written : string
}.

Definition newWriter : ResponseWriter := mkWriter [] None EmptyString.

(** What the caller receives: a handler that never wrote a header
    answers 200. *)
Definition sent (w : ResponseWriter) : Z * string :=
  (match status w with Some c => c | None => StatusOK end, written w).

End http.

(** Span attribute values. *)
Inductive AttrValue : Type :=
| AString (s : string)
| ABool (b : bool)
| AInt (n : Z)
| AFloat64 (f : float).

(** What a request leaves behind besides its response, in order: the spans
    it opens and closes, the attributes it sets on them, and the requests
    it sends out. *)
Inductive Event : Type :=
| SpanStart (name : string)
| SetAttributes (span : string) (key : string) (v : AttrValue)
| SpanEnd (name : string)
| RoundTrip (req : http.Request).

(** Everything outside the process. *)
Record Env : Type := mkEnv {
  (** [os.Getenv] *)
  Getenv : string -> string;
  (** [url.Parse] accepts the URL: [http.NewRequestWithContext] fails
      exactly when it does not (the methods are the constants GET and
      POST, the context is never nil). *)
  urlParses : string -> bool;
  (** [client.Do]: the response, or the transport error (connection
      refused, timeout, ...). *)
  Do : http.Request -> http.Response + error;
  (** The headers the propagator injects for the current trace context. *)
  Inject : http.Header;
  (** [strconv.ParseFloat(lit, 64)] on a JSON number literal; [None] when
      it reports an error (out of range). *)
  ParseFloat : string -> option float;
  (** The text [encoding/json] writes for a finite float64. *)
  FormatFloat : float -> string
}.

Record HandlerState : Type := mkState {
  w : http.ResponseWriter;
  trace : list Event
}.

(** The handlers run in a state monad over [HandlerState]. *)
Definition M (A : Type) : Type := HandlerState -> A * HandlerState.

Definition ret {A} (a : A) : M A := fun st => (a, st).

Definition bind {A B} (m : M A) (f : A -> M B) : M B :=
  fun st => let (a, st') := m st in f a st'.

Declare Scope go_scope.
Delimit Scope go_scope with go.
Notation "x <- m ;; k" := (bind m (fun x => k))
  (at level 61, m at next level, right associativity) : go_scope.
Notation "m ;; k" := (bind m (fun _ => k))
  (at level 61, right associativity) : go_scope.
Local Open Scope go_scope.

Definition emit (e : Event) : M unit :=
  fun st => (tt, mkState (w st) (trace st ++ [e])).

Definition modifyWriter (f : http.ResponseWriter -> http.ResponseWriter) : M unit :=
  fun st => (tt, mkState (f (w st)) (trace st)).

(** [w.Header().Set(key, value)] *)
Definition HeaderSet (key value : string) : M unit :=
  modifyWriter (fun w => http.mkWriter (http.Set_ key value (http.header w))
                                      (http.status w) (http.written w)).

(** [w.WriteHeader(code)]: only the first call counts. *)
Definition WriteHeader (code : Z) : M unit :=
  modifyWriter (fun w =>
    match http.status w with
    | Some _ => w
    | None => http.mkWriter (http.header w) (Some code) (http.written w)
    end).

(** [w.Write(data)]: writes the header with 200 first if none was. *)
Definition Write (data : string) : M unit :=
  WriteHeader http.StatusOK ;;
  modifyWriter (fun w => http.mkWriter (http.header w) (http.status w)
                                      (http.written w ++ data)).

(** [ctx, span := tracer.Start(ctx, name); defer span.End()] around [body]. *)
Definition withSpan {A} (name : string) (body : M A) : M A :=
  emit (SpanStart name) ;;
  a <- body ;;
  emit (SpanEnd name) ;;
  ret a.

(** [client.Do(req)] *)
Definition clientDo (env : Env) (req : http.Request) : M (http.Response + error) :=
  emit (RoundTrip req) ;;
  ret (Do env req).

(** [http.NewRequestWithContext(ctx, method, url, body)] *)
Definition NewRequestWithContext (env : Env) (method url body : string)
  : http.Request + error :=
  if urlParses env url then inl (http.mkRequest method url [] body)
  else inr (Errorf "parse url").

Definition newline : string := String "010" EmptyString.

(** ** The data both services declare *)

Record CEPRequest : Type := mkCEPRequest { CEP : string }.

Record WeatherResponse : Type := mkWeatherResponse {
  City : string;
  TempC : float;
  TempF : float;
  TempK : float
}.

Record ErrorResponse : Type := mkErrorResponse { Message : string }.

Definition CEPRequest_fields : list (jsonrt.Field CEPRequest) :=
  [("cep", jsonrt.stringField (fun s _ => mkCEPRequest s))].

(** [json.Marshal(req)] for a [CEPRequest]; it cannot fail. *)
Definition Marshal_CEPRequest (req : CEPRequest) : string :=
  "{" ++ jsonrt.member "cep" (jsonrt.encodeString (CEP req)) ++ "}".

Definition Marshal_ErrorResponse (e : ErrorResponse) : string :=
  "{" ++ jsonrt.member "message" (jsonrt.encodeString (Message e)) ++ "}".

(** [json.NewEncoder(w).Encode(v)]: the encoding and a newline, in one
    [Write]. *)
Definition Encode_ErrorResponse (e : ErrorResponse) : M unit :=
  Write (Marshal_ErrorResponse e ++ newline).

(** The three lines every error path of both handlers ends with. *)
Definition respondError (code : Z) (msg : string) : M unit :=
  HeaderSet "Content-Type" "application/json" ;;
  WriteHeader code ;;
  Encode_ErrorResponse (mkErrorResponse msg).

(** The pattern [^\d{8}$], compiled. *)
Definition cepPattern : regexp.Regexp :=
  regexp.Concat regexp.BeginText
    (regexp.Concat (regexp.Repeat 8 regexp.PerlDigit) regexp.EndText).

(** ** Temperature conversions (service-b)

    Binary64 arithmetic, the product rounded before the sum (the Go
    compiler may fuse the two on some targets; the values stated below
    are exact either way). *)

#[warnings="-inexact-float"]
Definition celsiusToFahrenheit (c : float) : float := (c * 1.8 + 32)%float.

Definition celsiusToKelvin (c : float) : float := (c + 273)%float.

(** ** service-a: the Edge service *)
Module ServiceA.

(** [matched, _ := regexp.MatchString(`^\d{8}$`, cep)]: the pattern
    compiles, so the discarded error is nil. *)
Definition validateCEP (cep : string) : bool :=
  regexp.MatchString cepPattern cep.

Section Handler.
Variable env : Env.

Definition span : string := "handle-cep-request".
Definition forwardSpan : string := "forward-to-service-b".
Definition validateSpan : string := "validate-cep".

Definition handleCEP (r : http.Request) : M unit :=
  withSpan span (
    if negb (String.eqb (http.Method r) http.MethodPost) then
      WriteHeader http.StatusMethodNotAllowed
    else
      let (req, err) :=
        jsonrt.Decode CEPRequest_fields (http.Body r) (mkCEPRequest EmptyString) in
      match err with
      | Some _ =>
          emit (SetAttributes span "error" (AString "invalid json")) ;;
          respondError http.StatusUnprocessableEntity "invalid zipcode"
      | None =>
          emit (SetAttributes span "cep" (AString (CEP req))) ;;
          emit (SpanStart validateSpan) ;;
          let isValid := validateCEP (CEP req) in
          emit (SetAttributes validateSpan "valid" (ABool isValid)) ;;
          emit (SpanEnd validateSpan) ;;
          if negb isValid then
            emit (SetAttributes span "error" (AString "invalid cep format")) ;;
            respondError http.StatusUnprocessableEntity "invalid zipcode"
          else
            (* Forward to Service B *)
            withSpan forwardSpan (
              let serviceBURL :=
                let v := Getenv env "SERVICE_B_URL" in
                if String.eqb v EmptyString then "http://service-b:8081" else v in
              let reqBody := Marshal_CEPRequest req in
              match NewRequestWithContext env http.MethodPost
                      (serviceBURL ++ "/weather") reqBody with
              | inr _ =>
                  emit (SetAttributes span "error" (AString "failed to create request")) ;;
                  respondError http.StatusInternalServerError "internal error"
              | inl httpReq0 =>
                  let httpReq :=
                    http.mkRequest (http.Method httpReq0) (http.URL httpReq0)
                      (http.Set_ "Content-Type" "application/json"
                                 (http.ReqHeader httpReq0) ++ Inject env)%list
                      (http.Body httpReq0) in
                  res <- clientDo env httpReq ;;
                  match res with
                  | inr _ =>
                      emit (SetAttributes forwardSpan "error"
                                          (AString "service b unavailable")) ;;
                      respondError http.StatusServiceUnavailable "service unavailable"
                  | inl resp =>
                      emit (SetAttributes forwardSpan "response_status"
                                          (AInt (http.StatusCode resp))) ;;
                      (* body, _ := io.ReadAll(resp.Body) *)
                      let body := fst (http.RespBody resp) in
                      HeaderSet "Content-Type" "application/json" ;;
                      WriteHeader (http.StatusCode resp) ;;
                      Write body
                  end
              end)
      end).

(** One request served from a fresh [ResponseWriter]: what the caller
    receives and the events left behind. *)
Definition serve (r : http.Request) : HandlerState :=
  snd (handleCEP r (mkState http.newWriter [])).

(** Status and body the caller receives. *)
Definition response (r : http.Request) : Z * string := http.sent (w (serve r)).

End Handler.
End ServiceA.

(** ** service-b: the Orchestration service *)
Module ServiceB.

(** ViaCEP API response; [Cep] is the field [CEP]. *)
Record ViaCEPResponse : Type := mkViaCEP {
  Cep : string;
  Logradouro : string;
  Complemento : string;
  Bairro : string;
  Localidade : string;
  UF : string;
  Erro : string
}.

Definition ViaCEPResponse_zero : ViaCEPResponse :=
  mkViaCEP EmptyString EmptyString EmptyString EmptyString EmptyString
           EmptyString EmptyString.

Definition ViaCEPResponse_fields : list (jsonrt.Field ViaCEPResponse) :=
  [ ("cep", jsonrt.stringField (fun s v =>
       mkViaCEP s (Logradouro v) (Complemento v) (Bairro v) (Localidade v) (UF v) (Erro v)));
    ("logradouro", jsonrt.stringField (fun s v =>
       mkViaCEP (Cep v) s (Complemento v) (Bairro v) (Localidade v) (UF v) (Erro v)));
    ("complemento", jsonrt.stringField (fun s v =>
       mkViaCEP (Cep v) (Logradouro v) s (Bairro v) (Localidade v) (UF v) (Erro v)));
    ("bairro", jsonrt.stringField (fun s v =>
       mkViaCEP (Cep v) (Logradouro v) (Complemento v) s (Localidade v) (UF v) (Erro v)));
    ("localidade", jsonrt.stringField (fun s v =>
       mkViaCEP (Cep v) (Logradouro v) (Complemento v) (Bairro v) s (UF v) (Erro v)));
    ("uf", jsonrt.stringField (fun s v =>
       mkViaCEP (Cep v) (Logradouro v) (Complemento v) (Bairro v) (Localidade v) s (Erro v)));
    ("erro", jsonrt.stringField (fun s v =>
       mkViaCEP (Cep v) (Logradouro v) (Complemento v) (Bairro v) (Localidade v) (UF v) s)) ].

(** WeatherAPI response: [Current.TempC]. *)
Record WeatherAPICurrent : Type := mkCurrent { Current_TempC : float }.
Record WeatherAPIResponse : Type := mkWeatherAPI { Current : WeatherAPICurrent }.

Definition WeatherAPIResponse_zero : WeatherAPIResponse :=
  mkWeatherAPI (mkCurrent 0%float).

Definition WeatherAPIResponse_fields (env : Env)
  : list (jsonrt.Field WeatherAPIResponse) :=
  [ ("current",
     jsonrt.structField
       [ ("temp_c", jsonrt.float64Field (ParseFloat env) (fun f _ => mkCurrent f)) ]
       Current (fun c _ => mkWeatherAPI c)) ].

Definition validateCEP (cep : string) : bool :=
  regexp.MatchString cepPattern cep.

(** [%d] of [fmt] *)
Definition itoa (n : Z) : string := NilZero.string_of_int (Z.to_int n).

Section Handler.
Variable env : Env.

Definition span : string := "handle-weather-request".
Definition lookupSpan : string := "lookup-cep-viacep".
Definition weatherSpan : string := "get-weather-api".

(** [span.SetAttributes(attribute.String("error", what)); return zero, err] *)
Definition client_error (what : string) (err : error)
  (spanName : string) {A} (zero : A) : M (A * option error) :=
  emit (SetAttributes spanName "error" (AString what)) ;;
  ret (zero, Some err).

(** The result is a pointer and an error: [(None, None)] is the nil
    pointer with a nil error, the not-found answer. *)
Definition lookupCEP (cep : string) : M (option ViaCEPResponse * option error) :=
  withSpan lookupSpan (
    emit (SetAttributes lookupSpan "cep" (AString cep)) ;;
    match NewRequestWithContext env http.MethodGet
            ("https://viacep.com.br/ws/" ++ cep ++ "/json/") EmptyString with
    | inr err => client_error "failed to create request" err lookupSpan None
    | inl req =>
        res <- clientDo env req ;;
        match res with
        | inr err => client_error "viacep request failed" err lookupSpan None
        | inl resp =>
            emit (SetAttributes lookupSpan "http_status"
                                (AInt (http.StatusCode resp))) ;;
            match http.RespBody resp with
            | (_, Some err) =>
                client_error "failed to read response" err lookupSpan None
            | (body, None) =>
                match jsonrt.Unmarshal ViaCEPResponse_fields body
                                       ViaCEPResponse_zero with
                | (_, Some err) =>
                    client_error "failed to parse response" err lookupSpan None
                | (viaCEP, None) =>
                    if String.eqb (Erro viaCEP) "true"
                       || String.eqb (Localidade viaCEP) EmptyString
                    then
                      emit (SetAttributes lookupSpan "cep_found" (ABool false)) ;;
                      ret (None, None)
                    else
                      emit (SetAttributes lookupSpan "cep_found" (ABool true)) ;;
                      emit (SetAttributes lookupSpan "city"
                                          (AString (Localidade viaCEP))) ;;
                      ret (Some viaCEP, None)
                end
            end
        end
    end).

Definition getWeather (city : string) : M (float * option error) :=
  withSpan weatherSpan (
    emit (SetAttributes weatherSpan "city" (AString city)) ;;
    let apiKey := Getenv env "WEATHER_API_KEY" in
    if String.eqb apiKey EmptyString then
      client_error "missing api key" (Errorf "WEATHER_API_KEY not set")
                   weatherSpan 0%float
    else
      let encodedCity := url.QueryEscape city in
      let apiURL :=
        "https://api.weatherapi.com/v1/current.json?key=" ++ apiKey
          ++ "&q=" ++ encodedCity ++ "&aqi=no" in
      match NewRequestWithContext env http.MethodGet apiURL EmptyString with
      | inr err => client_error "failed to create request" err weatherSpan 0%float
      | inl req =>
          res <- clientDo env req ;;
          match res with
          | inr err =>
              client_error "weather api request failed" err weatherSpan 0%float
          | inl resp =>
              emit (SetAttributes weatherSpan "http_status"
                                  (AInt (http.StatusCode resp))) ;;
              if negb (Z.eqb (http.StatusCode resp) http.StatusOK) then
                client_error "weather api returned non-200"
                  (Errorf ("weather API returned status: "
                             ++ itoa (http.StatusCode resp)))
                  weatherSpan 0%float
              else
                match http.RespBody resp with
                | (_, Some err) =>
                    client_error "failed to read response" err weatherSpan 0%float
                | (body, None) =>
                    match jsonrt.Unmarshal (WeatherAPIResponse_fields env) body
                                           WeatherAPIResponse_zero with
                    | (_, Some err) =>
                        client_error "failed to parse response" err
                                     weatherSpan 0%float
                    | (weatherResp, None) =>
                        let t := Current_TempC (Current weatherResp) in
                        emit (SetAttributes weatherSpan "temp_c" (AFloat64 t)) ;;
                        ret (t, None)
                    end
                end
          end
      end).

(** [json.Marshal] of a [WeatherResponse]: a float that is not finite
    is an [UnsupportedValueError]. *)
Definition Marshal_WeatherResponse (r : WeatherResponse) : string + error :=
  if jsonrt.isFinite (TempC r) && jsonrt.isFinite (TempF r)
     && jsonrt.isFinite (TempK r)
  then inl ("{" ++ jsonrt.member "city" (jsonrt.encodeString (City r))
              ++ "," ++ jsonrt.member "temp_C" (FormatFloat env (TempC r))
              ++ "," ++ jsonrt.member "temp_F" (FormatFloat env (TempF r))
              ++ "," ++ jsonrt.member "temp_K" (FormatFloat env (TempK r))
              ++ "}")
  else inr UnsupportedValueError.

(** [json.NewEncoder(w).Encode(response)]; nothing is written when the
    encoding fails, and the handler drops the error. *)
Definition Encode_WeatherResponse (r : WeatherResponse) : M unit :=
  match Marshal_WeatherResponse r with
  | inl b => Write (b ++ newline)
  | inr _ => ret tt
  end.

Definition handleWeather (r : http.Request) : M unit :=
  withSpan span (
    if negb (String.eqb (http.Method r) http.MethodPost) then
      WriteHeader http.StatusMethodNotAllowed
    else
      let (req, err) :=
        jsonrt.Decode CEPRequest_fields (http.Body r) (mkCEPRequest EmptyString) in
      match err with
      | Some _ =>
          emit (SetAttributes span "error" (AString "invalid json")) ;;
          respondError http.StatusUnprocessableEntity "invalid zipcode"
      | None =>
          emit (SetAttributes span "cep" (AString (CEP req))) ;;
          if negb (validateCEP (CEP req)) then
            emit (SetAttributes span "error" (AString "invalid cep format")) ;;
            respondError http.StatusUnprocessableEntity "invalid zipcode"
          else
            l <- lookupCEP (CEP req) ;;
            match l with
            | (_, Some _) =>
                emit (SetAttributes span "error" (AString "cep lookup failed")) ;;
                respondError http.StatusInternalServerError "internal error"
            | (None, None) =>
                emit (SetAttributes span "error" (AString "cep not found")) ;;
                respondError http.StatusNotFound "can not find zipcode"
            | (Some viaCEP, None) =>
                g <- getWeather (Localidade viaCEP) ;;
                match g with
                | (_, Some _) =>
                    emit (SetAttributes span "error"
                                        (AString "weather lookup failed")) ;;
                    respondError http.StatusInternalServerError
                                 "failed to get weather"
                | (tempC, None) =>
                    let tempF := celsiusToFahrenheit tempC in
                    let tempK := celsiusToKelvin tempC in
                    emit (SetAttributes span "city" (AString (Localidade viaCEP))) ;;
                    emit (SetAttributes span "temp_c" (AFloat64 tempC)) ;;
                    emit (SetAttributes span "temp_f" (AFloat64 tempF)) ;;
                    emit (SetAttributes span "temp_k" (AFloat64 tempK)) ;;
                    let response :=
                      mkWeatherResponse (Localidade viaCEP) tempC tempF tempK in
                    HeaderSet "Content-Type" "application/json" ;;
                    WriteHeader http.StatusOK ;;
                    Encode_WeatherResponse response
                end
            end
      end).

Definition serve (r : http.Request) : HandlerState :=
  snd (handleWeather r (mkState http.newWriter [])).

Definition response (r : http.Request) : Z * string := http.sent (w (serve r)).

End Handler.
End ServiceB.

(** * Vocabulary of the statements *)

(** The body [Encode] writes for [ErrorResponse{Message: msg}]. *)
Definition errorBody (msg : string) : string :=
  Marshal_ErrorResponse (mkErrorResponse msg) ++ newline.

(** The state a request starts from. *)
Definition st0 : HandlerState := mkState http.newWriter [].

(** The request [lookupCEP] sends and the one [getWeather] sends. *)
Definition viaCEPRequest (cep : string) : http.Request :=
  http.mkRequest http.MethodGet ("https://viacep.com.br/ws/" ++ cep ++ "/json/")
                 [] EmptyString.

Definition weatherURL (apiKey city : string) : string :=
  "https://api.weatherapi.com/v1/current.json?key=" ++ apiKey
    ++ "&q=" ++ url.QueryEscape city ++ "&aqi=no".

Definition weatherRequest (env : Env) (city : string) : http.Request :=
  http.mkRequest http.MethodGet (weatherURL (Getenv env "WEATHER_API_KEY") city)
                 [] EmptyString.

(** What the two collaborator calls return and the events they leave,
    read off a run from the empty state. *)
Definition lookupResult (env : Env) (cep : string)
  : option ServiceB.ViaCEPResponse * option error :=
  fst (ServiceB.lookupCEP env cep st0).

Definition lookupTrace (env : Env) (cep : string) : list Event :=
  trace (snd (ServiceB.lookupCEP env cep st0)).

Definition weatherResult (env : Env) (city : string) : float * option error :=
  fst (ServiceB.getWeather env city st0).

Definition weatherTrace (env : Env) (city : string) : list Event :=
  trace (snd (ServiceB.getWeather env city st0)).

(** A request the Orchestration handler takes past its validation. *)
Definition accepted (r : http.Request) (req : CEPRequest) : Prop :=
  http.Method r = http.MethodPost /\
  jsonrt.Decode CEPRequest_fields (http.Body r) (mkCEPRequest EmptyString)
    = (req, None) /\
  ServiceB.validateCEP (CEP req) = true.

(** The body of a 200 answer. *)
Definition weatherBody (env : Env) (city : string) (tempC : float) : string :=
  match ServiceB.Marshal_WeatherResponse env
          (mkWeatherResponse city tempC (celsiusToFahrenheit tempC)
                             (celsiusToKelvin tempC)) with
  | inl b => b ++ newline
  | inr _ => EmptyString
  end.

(** Events of the Weather call: the span of [getWeather] and a request
    to the weather provider. *)
Definition isWeatherEvent (e : Event) : bool :=
  match e with
  | SpanStart n | SpanEnd n | SetAttributes n _ _ => String.eqb n ServiceB.weatherSpan
  | RoundTrip req => String.prefix "https://api.weatherapi.com/" (http.URL req)
  end.

(** No event of the Weather call in [l]. *)
Definition noWeatherEvent (l : list Event) : bool :=
  forallb (fun e => negb (isWeatherEvent e)) l.

(** ** Scenarios

    Concrete requests and environments, used to run the handlers. *)
Module Scenario.

(** The text of an object with one string member. *)
Definition object1 (name value : string) : string :=
  "{" ++ jsonrt.q ++ name ++ jsonrt.q ++ ":" ++ jsonrt.q ++ value ++ jsonrt.q ++ "}".

Definition post (path cep : string) : http.Request :=
  http.mkRequest http.MethodPost path [] (object1 "cep" cep).

Definition answer (code : Z) (body : string) : http.Response + error :=
  inl (http.mkResponse code (body, None)).

Definition isViaCEP (r : http.Request) : bool :=
  String.prefix "https://viacep.com.br/ws/" (http.URL r).

Definition isWeatherAPI (r : http.Request) : bool :=
  String.prefix "https://api.weatherapi.com/" (http.URL r).

(** An environment whose collaborators answer [via] and [weather]; the
    credential is [key]; temperatures are 25.0 or 0. *)
Definition world (key : string) (via weather : http.Response + error) : Env :=
  mkEnv (fun name => if String.eqb name "WEATHER_API_KEY" then key else EmptyString)
        (fun _ => true)
        (fun r => if isViaCEP r then via
                  else if isWeatherAPI r then weather
                  else inr (NetError "connection refused"))
        [("Traceparent", "00-0af7651916cd43dd8448eb211c80319c-b7ad6b7169203331-01")]
        (fun lit => if String.eqb lit "25.0" then Some 25%float else Some 0%float)
        (fun f => if PrimFloat.eqb f 25 then "25"
                  else if PrimFloat.eqb f 77 then "77"
                  else if PrimFloat.eqb f 298 then "298" else "0").

(** The city name with its a-tilde in UTF-8. *)
Definition saoPaulo : string := "S" ++ String "195" (String "163" "o Paulo").

Definition found : http.Response + error :=
  answer 200 (object1 "localidade" "Recife").

Definition notFound : http.Response + error :=
  answer 200 (object1 "erro" "true").

Definition sunny : http.Response + error :=
  answer 200
    ("{" ++ jsonrt.q ++ "current" ++ jsonrt.q ++ ":{" ++ jsonrt.q ++ "temp_c"
         ++ jsonrt.q ++ ":25.0}}").

Definition down : http.Response + error := inr (NetError "connection refused").

End Scenario.

(** The text [{"message":"<msg>"}]. *)
Definition messageJSON (msg : string) : string := Scenario.object1 "message" msg.

(** The collaborator answered, and the answer says not found: an empty
    locality or the flag [erro]. *)
Definition lookupNotFound (env : Env) (cep : string) : Prop :=
  urlParses env (http.URL (viaCEPRequest cep)) = true /\
  exists resp body viaCEP,
    Do env (viaCEPRequest cep) = inl resp /\
    http.RespBody resp = (body, None) /\
    jsonrt.Unmarshal ServiceB.ViaCEPResponse_fields body ServiceB.ViaCEPResponse_zero
      = (viaCEP, None) /\
    (ServiceB.Localidade viaCEP = EmptyString \/ ServiceB.Erro viaCEP = "true").

(** The call failed in transport (no response, or the body could not be
    read) or its body did not parse. *)
Definition lookupFailed (env : Env) (cep : string) : Prop :=
  urlParses env (http.URL (viaCEPRequest cep)) = true /\
  ((exists err, Do env (viaCEPRequest cep) = inr err) \/
   (exists resp body err,
       Do env (viaCEPRequest cep) = inl resp /\
       http.RespBody resp = (body, Some err)) \/
   (exists resp body viaCEP err,
       Do env (viaCEPRequest cep) = inl resp /\
       http.RespBody resp = (body, None) /\
       jsonrt.Unmarshal ServiceB.ViaCEPResponse_fields body
                        ServiceB.ViaCEPResponse_zero = (viaCEP, Some err))).

(** ** The Orchestration handler: the weather call *)

(** The ways the Weather call fails. *)
Inductive WeatherFailure (env : Env) (city : string) : Prop :=
| MissingCredential :
    Getenv env "WEATHER_API_KEY" = EmptyString ->
    WeatherFailure env city
| RequestConstruction :
    Getenv env "WEATHER_API_KEY" <> EmptyString ->
    urlParses env (http.URL (weatherRequest env city)) = false ->
    WeatherFailure env city
| TransportError (err : error) :
    Getenv env "WEATHER_API_KEY" <> EmptyString ->
    urlParses env (http.URL (weatherRequest env city)) = true ->
    Do env (weatherRequest env city) = inr err ->
    WeatherFailure env city
| NonSuccessStatus (resp : http.Response) :
    Getenv env "WEATHER_API_KEY" <> EmptyString ->
    urlParses env (http.URL (weatherRequest env city)) = true ->
    Do env (weatherRequest env city) = inl resp ->
    http.StatusCode resp <> 200%Z ->
    WeatherFailure env city
| ReadError (resp : http.Response) (body : string) (err : error) :
    Getenv env "WEATHER_API_KEY" <> EmptyString ->
    urlParses env (http.URL (weatherRequest env city)) = true ->
    Do env (weatherRequest env city) = inl resp ->
    http.StatusCode resp = 200%Z ->
    http.RespBody resp = (body, Some err) ->
    WeatherFailure env city
| ParseError (resp : http.Response) (body : string)
             (weatherResp : ServiceB.WeatherAPIResponse) (err : error) :
    Getenv env "WEATHER_API_KEY" <> EmptyString ->
    urlParses env (http.URL (weatherRequest env city)) = true ->
    Do env (weatherRequest env city) = inl resp ->
    http.StatusCode resp = 200%Z ->
    http.RespBody resp = (body, None) ->
    jsonrt.Unmarshal (ServiceB.WeatherAPIResponse_fields env) body
                     ServiceB.WeatherAPIResponse_zero = (weatherResp, Some err) ->
    WeatherFailure env city.

(** ** The Edge handler *)

(** A request the Edge handler takes past its validation. *)
Definition acceptedByEdge (r : http.Request) (req : CEPRequest) : Prop :=
  http.Method r = http.MethodPost /\
  jsonrt.Decode CEPRequest_fields (http.Body r) (mkCEPRequest EmptyString)
    = (req, None) /\
  ServiceA.validateCEP (CEP req) = true.

(** The request body fails to parse as a [CEPRequest], or the parsed
    postal code fails the validator. *)
Definition invalidZipcode (r : http.Request) : Prop :=
  let (req, err) :=
    jsonrt.Decode CEPRequest_fields (http.Body r) (mkCEPRequest EmptyString) in
  err <> None \/ ServiceA.validateCEP (CEP req) = false.

Definition serviceBURL (env : Env) : string :=
  let v := Getenv env "SERVICE_B_URL" in
  if String.eqb v EmptyString then "http://service-b:8081" else v.

(** The request the Edge handler sends to the Orchestration service. *)
Definition forwardRequest (env : Env) (req : CEPRequest) : http.Request :=
  http.mkRequest http.MethodPost (serviceBURL env ++ "/weather")
                 (("Content-Type", "application/json") :: Inject env)
                 (Marshal_CEPRequest req).

(** The Orchestration service as the Edge service reaches it: every round
    trip of [edge] is answered by [handleWeather] running in [orch]. *)
Definition answeredBy (orch : Env) (q : http.Request) : http.Response :=
  http.mkResponse (fst (ServiceB.response orch q))
                  (snd (ServiceB.response orch q), None).

Definition forwardsTo (edge orch : Env) : Prop :=
  forall q, Do edge q = inl (answeredBy orch q).

(** A byte a JSON string literal holds as it is: ASCII, no control byte,
    neither the quotation mark nor the backslash. *)
Definition plain (c : ascii) : bool :=
  (N_of_ascii c <? 128)%N && negb (N_of_ascii c <? 32)%N
  && negb (Ascii.eqb c dquote) && negb (Ascii.eqb c "\").

(** The answer to a request that is not a valid postal code request. *)
Definition invalidAnswer : Z * string :=
  (422%Z, messageJSON "invalid zipcode" ++ newline).

(** The Edge handler relays an answer of its upstream that is itself
    422 "invalid zipcode". *)
Definition relayedInvalid (edge : Env) (r : http.Request) : Prop :=
  exists req resp,
    acceptedByEdge r req /\
    urlParses edge (http.URL (forwardRequest edge req)) = true /\
    Do edge (forwardRequest edge req) = inl resp /\
    (http.StatusCode resp, fst (http.RespBody resp)) = invalidAnswer.

(** The text [{"cep":"<cep>"}]. *)
Definition cepJSON (cep : string) : string := Scenario.object1 "cep" cep.


(** ** Coverage beyond the claims: vocabulary *)

(** The requests a run sends out, in order. *)
Definition roundTrips (l : list Event) : list http.Request :=
  flat_map (fun e => match e with RoundTrip q => [q] | _ => [] end) l.

(** The text of a 200 answer: the four members in the order of the struct,
    the temperatures formatted by the encoder. *)
Definition weatherJSON (env : Env) (city : string) (tempC : float) : string :=
  "{" ++ jsonrt.member "city" (jsonrt.encodeString city)
      ++ "," ++ jsonrt.member "temp_C" (FormatFloat env tempC)
      ++ "," ++ jsonrt.member "temp_F" (FormatFloat env (celsiusToFahrenheit tempC))
      ++ "," ++ jsonrt.member "temp_K" (FormatFloat env (celsiusToKelvin tempC))
      ++ "}".

(** Both calls of the Orchestration handler succeed: the lookup finds
    [viaCEP], the weather call returns [tempC]. *)
Definition bothSucceed (env : Env) (r : http.Request)
           (viaCEP : ServiceB.ViaCEPResponse) (tempC : float) : Prop :=
  exists req,
    accepted r req /\
    lookupResult env (CEP req) = (Some viaCEP, None) /\
    weatherResult env (ServiceB.Localidade viaCEP) = (tempC, None).

(** An environment in which the provider reports 1e308 degrees, a finite
    float64 whose Fahrenheit value is not. *)
#[warnings="-inexact-float"]
Definition scorching : Env :=
  mkEnv (fun name => if String.eqb name "WEATHER_API_KEY" then "key" else EmptyString)
        (fun _ => true)
        (fun r => if Scenario.isViaCEP r then Scenario.found
                  else Scenario.answer 200
                         ("{" ++ jsonrt.member "current"
                                   ("{" ++ jsonrt.member "temp_c" "1e308" ++ "}")
                              ++ "}"))
        []
        (fun lit => if String.eqb lit "1e308" then Some 1e308%float else None)
        (fun _ => "0").

(** Span discipline of a trace, [open] being the spans open so far, the
    innermost first: a span ends only as the innermost open one, an
    attribute is set on an open span, a request is sent inside a span, and
    at the end every span is closed. *)
Fixpoint wellBracketed (open : list string) (l : list Event) : bool :=
  match l with
  | [] => match open with [] => true | _ :: _ => false end
  | SpanStart n :: l' => wellBracketed (n :: open) l'
  | SpanEnd n :: l' =>
      match open with
      | m :: open' => String.eqb n m && wellBracketed open' l'
      | [] => false
      end
  | SetAttributes n _ _ :: l' => existsb (String.eqb n) open && wellBracketed open l'
  | RoundTrip _ :: l' =>
      match open with
      | _ :: _ => wellBracketed open l'
      | [] => false
      end
  end.

(** The bytes [url.QueryEscape] may produce: the unreserved characters,
    the plus sign and the percent sign. *)
Definition queryByte (c : ascii) : bool :=
  byte_in "a" "z" c || byte_in "A" "Z" c || byte_in "0" "9" c
  || Ascii.eqb c "-" || Ascii.eqb c "_" || Ascii.eqb c "." || Ascii.eqb c "~"
  || Ascii.eqb c "+" || Ascii.eqb c "%".

Definition hexNibble (c : ascii) : N :=
  if byte_in "0" "9" c then N_of_ascii c - 48 else N_of_ascii c - 55.

(** Reading an escaped query component back ([url.QueryUnescape] on the
    image of [QueryEscape]). *)
Fixpoint unescapeQuery (s : string) : string :=
  match s with
  | EmptyString => EmptyString
  | String c s1 =>
      if Ascii.eqb c "+" then String " " (unescapeQuery s1)
      else if Ascii.eqb c "%" then
        match s1 with
        | String h (String l s3) =>
            String (ascii_of_N (16 * hexNibble h + hexNibble l)) (unescapeQuery s3)
        | _ => String c (unescapeQuery s1)
        end
      else String c (unescapeQuery s1)
  end.

(** A string with each byte that is not part of a well-formed UTF-8
    sequence replaced by U+FFFD (what the decoder makes of it). *)
Fixpoint toValidUTF8 (s : string) : string :=
  match s with
  | EmptyString => EmptyString
  | String c s1 =>
      if (N_of_ascii c <? 128)%N then String c (toValidUTF8 s1)
      else
        match utf8.width c s1 with
        | 2 =>
            match s1 with
            | String c2 s2 => String c (String c2 (toValidUTF8 s2))
            | _ => EmptyString
            end
        | 3 =>
            match s1 with
            | String c2 (String c3 s3) =>
                String c (String c2 (String c3 (toValidUTF8 s3)))
            | _ => EmptyString
            end
        | 4 =>
            match s1 with
            | String c2 (String c3 (String c4 s4)) =>
                String c (String c2 (String c3 (String c4 (toValidUTF8 s4))))
            | _ => EmptyString
            end
        | _ => utf8.replacement ++ toValidUTF8 s1
        end
  end.

Definition isASCII (c : ascii) : bool := (N_of_ascii c <? 128)%N.

(** * Theorems *)

(** ** Strings *)

Lemma append_assoc (a b c : string) : (a ++ b) ++ c = a ++ (b ++ c).
Proof. induction a as [|x a IH]; cbn; [reflexivity|now rewrite IH]. Qed.

(** ** The conversions *)

(** C1. For every Celsius temperature [c] (a float64), [celsiusToFahrenheit c]
    is [c * 1.8 + 32] and [celsiusToKelvin c] is [c + 273], both computed
    in binary64; the functions take no state and no environment, so they are
    pure; F(0) = 32, F(100) = 212, K(0) = 273, and the offset is the integer
    273, not 273.15. *)
#[warnings="-inexact-float"]
Theorem conversions_formulas :
  (forall c : float,
      celsiusToFahrenheit c = (c * 1.8 + 32)%float /\
      celsiusToKelvin c = (c + 273)%float) /\
  celsiusToFahrenheit 0 = 32%float /\
  celsiusToFahrenheit 100 = 212%float /\
  celsiusToKelvin 0 = 273%float /\
  PrimFloat.eqb (celsiusToKelvin 0) 273.15 = false /\
  celsiusToFahrenheit 25 = 77%float /\
  celsiusToKelvin 25 = 298%float.
Proof.
  split; [intro c; split; reflexivity|].
  repeat split; vm_compute; reflexivity.
Qed.

(** ** The validator *)

Lemma searchFrom_cep_later (pos : nat) (s : string) :
  regexp.searchFrom cepPattern (S pos) s = false.
Proof.
  revert pos; induction s as [|c s IH]; intro pos; simpl.
  - reflexivity.
  - apply IH.
Qed.

Lemma allb_forall (p : ascii -> bool) (s : string) :
  allb p s = true <-> (forall c, In c (list_ascii_of_string s) -> p c = true).
Proof.
  induction s as [|a s IH]; simpl.
  - split; [intros _ c []|reflexivity].
  - rewrite andb_true_iff, IH. split.
    + intros [Ha Hs] c [<-|Hc]; auto.
    + intros H; split; [apply H; now left|intros c Hc; apply H; now right].
Qed.

Lemma MatchString_cep (s : string) :
  regexp.MatchString cepPattern s = Nat.eqb (String.length s) 8 && allb isDigit s.
Proof.
  unfold regexp.MatchString.
  destruct s as [|c1 s]; [reflexivity|].
  cbn [regexp.searchFrom]. rewrite searchFrom_cep_later, orb_false_r.
  do 8 (try (destruct s as [|? s]));
    cbn -[isDigit];
    repeat (match goal with
            | |- context [isDigit ?c] => destruct (isDigit c); cbn -[isDigit]
            end);
    reflexivity.
Qed.

Lemma validateCEP_eq (s : string) :
  ServiceA.validateCEP s = Nat.eqb (String.length s) 8 && allb isDigit s.
Proof. apply MatchString_cep. Qed.

Lemma validateCEP_true_iff (s : string) :
  ServiceA.validateCEP s = true <->
  String.length s = 8 /\
  (forall c, In c (list_ascii_of_string s) -> isDigit c = true).
Proof.
  rewrite validateCEP_eq, andb_true_iff, Nat.eqb_eq, allb_forall.
  reflexivity.
Qed.

(** C2. In both services [validateCEP s] is true exactly when [s] has
    length 8 and each of its bytes is an ASCII digit; so it is false for
    every string whose length is not 8 and for every string that holds a
    byte that is not a digit.  (The length is in bytes; eight digits are
    eight bytes and eight characters alike, and a character of several
    bytes holds no digit.) *)
Theorem validateCEP_spec (s : string) :
  (ServiceA.validateCEP s = true <->
   String.length s = 8 /\
   (forall c, In c (list_ascii_of_string s) -> isDigit c = true)) /\
  ServiceB.validateCEP s = ServiceA.validateCEP s /\
  (String.length s <> 8 -> ServiceA.validateCEP s = false) /\
  ((exists c, In c (list_ascii_of_string s) /\ isDigit c = false) ->
   ServiceA.validateCEP s = false).
Proof.
  split; [apply validateCEP_true_iff|].
  split; [reflexivity|].
  split.
  - intro Hlen. apply not_true_is_false. rewrite validateCEP_true_iff.
    intros [H _]. contradiction.
  - intros [c [Hin Hc]]. apply not_true_is_false. rewrite validateCEP_true_iff.
    intros [_ H]. rewrite (H c Hin) in Hc. discriminate.
Qed.

Example validateCEP_runs :
  ServiceA.validateCEP "01310100" = true /\
  ServiceA.validateCEP "123" = false /\
  ServiceA.validateCEP "01310-100" = false /\
  ServiceA.validateCEP "0131010a" = false /\
  ServiceA.validateCEP ("01310100" ++ newline) = false /\
  ServiceA.validateCEP "013101000" = false /\
  ServiceA.validateCEP EmptyString = false.
Proof. repeat split; reflexivity. Qed.

(** ** The fuel of the JSON parser is enough

    A step of the parser consumes a byte before it recurses, but for the
    first element of an array, which is parsed on the text the array
    handed over.  So a parse needs at most two units of fuel for a byte,
    and with that much, one unit more changes nothing. *)

Ltac break_in H :=
  repeat match type of H with
         | context [match ?x with _ => _ end] =>
             lazymatch x with
             | context [match _ with _ => _ end] => fail
             | _ => destruct x eqn:?
             end
         end.

Lemma skipSpace_length (s : string) :
  String.length (json.skipSpace s) <= String.length s.
Proof.
  induction s as [|c s IH]; cbn; [lia|].
  destruct (json.isSpace c); cbn; lia.
Qed.

Lemma emit_Some (out : string) (res : option (string * string)) (d r : string) :
  json.emit out res = Some (d, r) -> exists d', res = Some (d', r).
Proof.
  destruct res as [[d' r']|]; cbn; [|discriminate].
  intros [= _ ->]. eauto.
Qed.

Lemma scanString_length (n : nat) (s d r : string) :
  String.length s <= n ->
  json.scanString s = Some (d, r) -> String.length r < String.length s.
Proof.
  revert s d r. induction n as [|n IH]; intros s d r Hn H.
  - destruct s; [discriminate|cbn in Hn; lia].
  - destruct s as [|c s1]; [discriminate|].
    cbn [json.scanString] in H. cbn [String.length] in Hn.
    break_in H; subst; try discriminate;
      try (injection H as _ <-; cbn [String.length]; lia);
      apply emit_Some in H as [d' H]; apply IH in H;
      cbn [String.length] in *; lia.
Qed.

Lemma spanDigits_length (s ds r : string) :
  json.spanDigits s = (ds, r) -> String.length r <= String.length s.
Proof.
  revert ds r. induction s as [|c s IH]; intros ds r H; cbn in H.
  - injection H as _ <-. lia.
  - destruct (isDigit c).
    + destruct (json.spanDigits s) as [ds' r'] eqn:Hs.
      injection H as _ <-. specialize (IH _ _ eq_refl). cbn. lia.
    + injection H as _ <-. lia.
Qed.

Lemma scanNumber_length (s lit r : string) :
  json.scanNumber s = Some (lit, r) -> String.length r < String.length s.
Proof.
  unfold json.scanNumber. intro H.
  break_in H; subst; try discriminate;
    repeat match goal with
           | E : json.spanDigits _ = (_, _) |- _ =>
               apply spanDigits_length in E
           | E : (_, _) = (_, _) |- _ => injection E as ? ?; subst
           | E : Some _ = Some _ |- _ => injection E as ?; subst
           end;
    cbn [String.length] in *; lia.
Qed.

Lemma expect_length (lit s r : string) :
  json.expect lit s = Some r -> String.length r <= String.length s.
Proof.
  revert s. induction lit as [|a lit IH]; intros s H; cbn in H.
  - injection H as <-. lia.
  - destruct s as [|b s]; [discriminate|].
    destruct (Ascii.eqb a b); [|discriminate].
    apply IH in H. cbn. lia.
Qed.

Ltac length_facts IH :=
  repeat match goal with
         | E : json.skipSpace ?s = _ |- _ =>
             let H := fresh "Hlen" in
             pose proof (skipSpace_length s) as H; rewrite E in H; clear E
         | E : json.scanString _ = Some _ |- _ =>
             apply (scanString_length _ _ _ _ (le_n _)) in E
         | E : json.scanNumber _ = Some _ |- _ => apply scanNumber_length in E
         | E : json.expect _ _ = Some _ |- _ => apply expect_length in E
         | E : json.parseValue _ _ _ = Some _ |- _ => apply (proj1 (IH _ _)) in E
         | E : json.parseMembers _ _ _ = Some _ |- _ =>
             apply (proj1 (proj2 (IH _ _))) in E
         | E : json.parseElements _ _ _ = Some _ |- _ =>
             apply (proj2 (proj2 (IH _ _))) in E
         | E : Some _ = Some _ |- _ => injection E as ? ?; subst
         end;
  cbn [String.length] in *.

(** A parse returns less text than it was given. *)
Lemma parse_length (fuel : nat) (d : N) (s : string) :
  (forall v r, json.parseValue fuel d s = Some (v, r) ->
               String.length r < String.length s) /\
  (forall ms r, json.parseMembers fuel d s = Some (ms, r) ->
                String.length r < String.length s) /\
  (forall vs r, json.parseElements fuel d s = Some (vs, r) ->
                String.length r < String.length s).
Proof.
  revert d s. induction fuel as [|f IH]; intros d s.
  - repeat split; intros; discriminate.
  - repeat split; intros x r H;
      cbn [json.parseValue json.parseMembers json.parseElements] in H;
      unfold option_map in H;
      break_in H; try discriminate; length_facts IH; lia.
Qed.

Ltac parsed_lengths :=
  repeat match goal with
         | E : json.skipSpace ?s = _ |- _ =>
             let H := fresh "Hlen" in
             pose proof (skipSpace_length s) as H; rewrite E in H; clear E
         | E : json.scanString _ = Some _ |- _ =>
             apply (scanString_length _ _ _ _ (le_n _)) in E
         | E : json.parseValue _ _ _ = Some _ |- _ =>
             apply (proj1 (parse_length _ _ _)) in E
         | E : json.parseMembers _ _ _ = Some _ |- _ =>
             apply (proj1 (proj2 (parse_length _ _ _))) in E
         | E : json.parseElements _ _ _ = Some _ |- _ =>
             apply (proj2 (proj2 (parse_length _ _ _))) in E
         end;
  cbn [String.length] in *.

(** With twice as much fuel as bytes, one more unit of fuel changes
    nothing. *)
Lemma parse_fuel_step (fuel : nat) (d : N) (s : string) :
  (2 * String.length s + 1 <= fuel ->
   json.parseValue (S fuel) d s = json.parseValue fuel d s) /\
  (2 * String.length s + 2 <= fuel ->
   json.parseMembers (S fuel) d s = json.parseMembers fuel d s /\
   json.parseElements (S fuel) d s = json.parseElements fuel d s).
Proof.
  revert d s. induction fuel as [|f IH]; intros d s; [split; intro; lia|].
  split; [intro Hs|intro Hs; split];
    (* unfold each side once: the left calls with fuel [S f], the right
       with fuel [f] *)
    remember (S f) as g eqn:Hg;
    cbn [json.parseValue json.parseMembers json.parseElements];
    match goal with |- ?l = _ => remember l as lhs eqn:Hlhs end;
    subst g;
    cbn [json.parseValue json.parseMembers json.parseElements];
    subst lhs;
    repeat match goal with
           | |- context [json.parseValue (S f) ?d' ?s'] =>
               let Hl := fresh in
               assert (Hl : 2 * String.length s' + 1 <= f)
                 by (parsed_lengths; lia);
               rewrite (proj1 (IH d' s') Hl); clear Hl
           | |- context [json.parseMembers (S f) ?d' ?s'] =>
               let Hl := fresh in
               assert (Hl : 2 * String.length s' + 2 <= f)
                 by (parsed_lengths; lia);
               rewrite (proj1 (proj2 (IH d' s') Hl)); clear Hl
           | |- context [json.parseElements (S f) ?d' ?s'] =>
               let Hl := fresh in
               assert (Hl : 2 * String.length s' + 2 <= f)
                 by (parsed_lengths; lia);
               rewrite (proj2 (proj2 (IH d' s') Hl)); clear Hl
           | |- context [match ?x with _ => _ end] =>
               lazymatch x with
               | context [match _ with _ => _ end] => fail
               | _ => destruct x eqn:?
               end
           end;
    reflexivity.
Qed.

(** [readValue] and [checkValid] would read the same with any more fuel. *)
Lemma parse_fuel_enough (fuel : nat) (d : N) (s : string) :
  json.fuelFor s <= fuel ->
  json.parseValue fuel d s = json.parseValue (json.fuelFor s) d s.
Proof.
  unfold json.fuelFor. intro H.
  induction fuel as [|f IH]; [lia|].
  destruct (Nat.eq_dec f (2 * String.length s)) as [->|Hne]; [reflexivity|].
  rewrite (proj1 (parse_fuel_step f d s)) by lia. apply IH. lia.
Qed.

(** ** Strings of digits through the encoder and the scanner *)

Lemma digit_byte (c : ascii) :
  isDigit c = true ->
  (N_of_ascii c <? 128)%N = true /\
  jsonrt.htmlSafe c = true /\
  Ascii.eqb c dquote = false /\
  (N_of_ascii c <? 32)%N = false /\
  Ascii.eqb c "\" = false.
Proof.
  destruct c as [[] [] [] [] [] [] [] []]; intro H;
    solve [discriminate H | repeat split; reflexivity].
Qed.

Lemma escapeString_digits (s : string) :
  allb isDigit s = true -> jsonrt.escapeString s = s.
Proof.
  induction s as [|c s IH]; [reflexivity|].
  cbn [allb]. intros [Hc Hs]%andb_true_iff.
  destruct (digit_byte c Hc) as (H1 & H2 & _).
  cbn [jsonrt.escapeString]. rewrite H1, H2, (IH Hs). reflexivity.
Qed.

Lemma allb_impl (p p' : ascii -> bool) (s : string) :
  (forall c, p c = true -> p' c = true) -> allb p s = true -> allb p' s = true.
Proof.
  intro H. induction s as [|c s IH]; [reflexivity|].
  cbn. intros [Hc Hs]%andb_true_iff. now rewrite (H c Hc), (IH Hs).
Qed.

Lemma digit_plain (c : ascii) : isDigit c = true -> plain c = true.
Proof.
  intro H. destruct (digit_byte c H) as (H1 & _ & H3 & H4 & H5).
  unfold plain. now rewrite H1, H3, H4, H5.
Qed.

Lemma scanString_plain (s rest : string) :
  allb plain s = true ->
  json.scanString (s ++ String dquote rest) = Some (s, rest).
Proof.
  induction s as [|c s IH]; intro H.
  - reflexivity.
  - cbn [allb] in H. apply andb_true_iff in H as [Hc Hs].
    unfold plain in Hc.
    apply andb_true_iff in Hc as [Hc H5]. apply andb_true_iff in Hc as [Hc H3].
    apply andb_true_iff in Hc as [H1 H4].
    apply negb_true_iff in H3, H4, H5.
    cbn [append json.scanString]. rewrite H3, H4, H5.
    unfold utf8.width. rewrite H1, (IH Hs). reflexivity.
Qed.

(** Decide the tests on known bytes that stand in the goal. *)
Ltac eval_bool t :=
  let v := eval vm_compute in t in
  lazymatch v with
  | true => change t with true
  | false => change t with false
  end.

Ltac known_bytes :=
  repeat (match goal with
          | |- context [Ascii.eqb ?a ?b] => eval_bool (Ascii.eqb a b)
          | |- context [json.isSpace ?a] => eval_bool (json.isSpace a)
          | |- context [N.ltb ?a ?b] => eval_bool (N.ltb a b)
          end;
          cbn [negb]; cbv iota).

(** One string value, and an object with one string member. *)
Lemma parseValue_string (fuel : nat) (depth : N) (s rest : string) :
  allb plain s = true ->
  json.parseValue (S fuel) depth (String dquote (s ++ String dquote rest))
  = Some (json.Str s, rest).
Proof.
  intro H. cbn [json.parseValue json.skipSpace]. known_bytes.
  now rewrite (scanString_plain s rest H).
Qed.

Lemma parseValue_object1 (fuel : nat) (name s rest : string) :
  allb plain name = true -> allb plain s = true ->
  json.parseValue (S (S (S fuel))) 0
    ("{" ++ String dquote (name ++ String dquote
             (":" ++ String dquote (s ++ String dquote ("}" ++ rest)))))
  = Some (json.Object [(name, json.Str s)], rest).
Proof.
  intros Hn Hs.
  cbn [json.parseValue json.skipSpace append]. known_bytes.
  cbn [json.parseMembers json.skipSpace]. known_bytes.
  rewrite (scanString_plain name _ Hn).
  cbn [json.skipSpace]. known_bytes.
  rewrite (parseValue_string fuel _ s _ Hs).
  cbn [json.skipSpace]. known_bytes.
  reflexivity.
Qed.

Lemma object1_shape (name value : string) :
  Scenario.object1 name value =
  "{" ++ String dquote (name ++ String dquote
           (":" ++ String dquote (value ++ String dquote ("}" ++ EmptyString)))).
Proof.
  unfold Scenario.object1, jsonrt.q. reflexivity.
Qed.

Lemma readValue_object1 (name value : string) :
  allb plain name = true -> allb plain value = true ->
  json.readValue (Scenario.object1 name value)
  = Some (json.Object [(name, json.Str value)]).
Proof.
  intros Hn Hv. unfold json.readValue, json.fuelFor.
  rewrite object1_shape. cbn [String.length append Nat.mul Nat.add].
  now rewrite (parseValue_object1 _ name value EmptyString Hn Hv).
Qed.

(** What the Edge handler marshals is the text [{"cep":"<cep>"}], and the
    Orchestration handler decodes it to the same request. *)
Lemma Marshal_valid (req : CEPRequest) :
  ServiceA.validateCEP (CEP req) = true ->
  Marshal_CEPRequest req = cepJSON (CEP req).
Proof.
  rewrite validateCEP_eq. intros [_ Hd]%andb_true_iff.
  unfold Marshal_CEPRequest, jsonrt.member, jsonrt.encodeString, cepJSON,
    Scenario.object1.
  rewrite (escapeString_digits _ Hd). cbn. now rewrite !append_assoc.
Qed.

Lemma Decode_Marshal (req : CEPRequest) :
  ServiceA.validateCEP (CEP req) = true ->
  jsonrt.Decode CEPRequest_fields (Marshal_CEPRequest req) (mkCEPRequest EmptyString)
  = (req, None).
Proof.
  intro Hv. rewrite (Marshal_valid req Hv).
  rewrite validateCEP_eq in Hv. apply andb_true_iff in Hv as [_ Hd].
  destruct req as [cep]. cbn [CEP] in *.
  unfold jsonrt.Decode, cepJSON.
  rewrite readValue_object1;
    [reflexivity|reflexivity|exact (allb_impl _ _ _ digit_plain Hd)].
Qed.

(** ** Decoding: a value of the wrong type *)

Lemma findField_found {T} (fields : list (jsonrt.Field T)) (f : jsonrt.Field T)
      (key : string) :
  In f fields -> jsonrt.equalFold (fst f) key = true ->
  exists f', jsonrt.findField fields key = Some f'.
Proof.
  induction fields as [|g fields IH]; intros Hin Hf; [contradiction|].
  cbn. destruct (jsonrt.equalFold (fst g) key) eqn:Hg; [eauto|].
  destruct Hin as [->|Hin]; [congruence|]. now apply IH.
Qed.

(** Once an error is saved, the rest of the object does not clear it. *)
Lemma object_step_saved {T} (fields : list (jsonrt.Field T))
      (members : list (string * json.Value)) (acc : T * option error) :
  snd acc <> None ->
  snd (fold_left
         (fun (acc : T * option error) (m : string * json.Value) =>
            match jsonrt.findField fields (fst m) with
            | None => acc
            | Some f =>
                let (t', e) := snd f (snd m) (fst acc) in
                (t', jsonrt.saveError (snd acc) e)
            end) members acc) <> None.
Proof.
  revert acc. induction members as [|m members IH]; intros acc Hacc; [exact Hacc|].
  cbn [fold_left]. apply IH.
  destruct (jsonrt.findField fields (fst m)) as [f|]; [|exact Hacc].
  destruct (snd f (snd m) (fst acc)) as [t' e]. cbn.
  destruct (snd acc); [discriminate|contradiction].
Qed.

(** A member whose field refuses its value makes the decoding fail. *)
Lemma object_type_error {T} (fields : list (jsonrt.Field T))
      (members : list (string * json.Value)) (t : T)
      (key : string) (v : json.Value) (f : jsonrt.Field T) :
  In (key, v) members ->
  jsonrt.findField fields key = Some f ->
  (forall t', snd (snd f v t') <> None) ->
  snd (jsonrt.object fields members t) <> None.
Proof.
  unfold jsonrt.object. generalize (t, @None error) as acc.
  induction members as [|m members IH]; intros acc Hin Hf Hv; [contradiction|].
  cbn [fold_left]. destruct Hin as [->|Hin].
  - apply object_step_saved. cbn [fst snd]. rewrite Hf.
    specialize (Hv (fst acc)).
    destruct (snd f v (fst acc)) as [t' e]. cbn in *.
    destruct (snd acc); [discriminate|exact Hv].
  - now apply IH.
Qed.

(** Every field of [ViaCEPResponse] is a string: none takes a boolean. *)
Lemma ViaCEPResponse_no_bool (key : string) (f : jsonrt.Field ServiceB.ViaCEPResponse)
      (b : bool) (t : ServiceB.ViaCEPResponse) :
  jsonrt.findField ServiceB.ViaCEPResponse_fields key = Some f ->
  snd (snd f (json.Bool b) t) <> None.
Proof.
  unfold ServiceB.ViaCEPResponse_fields. cbn [jsonrt.findField fst].
  repeat (match goal with
          | |- context [if ?c then _ else _] => destruct c
          end; [intros [= <-]; cbn; discriminate|]).
  discriminate.
Qed.

(** ** Running the monad *)

Ltac run :=
  unfold withSpan, clientDo, ServiceB.client_error, respondError,
    Encode_ErrorResponse, Write, WriteHeader, HeaderSet, modifyWriter, emit,
    bind, ret; cbn.

(** Case analysis on an innermost scrutinee of the goal. *)
Ltac break_match :=
  match goal with
  | |- context [match ?x with _ => _ end] =>
      lazymatch x with
      | context [match _ with _ => _ end] => fail
      | _ => destruct x
      end
  end.

Lemma lookupCEP_run (env : Env) (cep : string) (st : HandlerState) :
  ServiceB.lookupCEP env cep st
  = (lookupResult env cep, mkState (w st) (trace st ++ lookupTrace env cep)).
Proof.
  unfold lookupResult, lookupTrace, ServiceB.lookupCEP, NewRequestWithContext.
  destruct st as [wr tr]. run.
  destruct (urlParses env _); run.
  2: { now rewrite <- !app_assoc. }
  destruct (Do env _) as [[code [body [e|]]]|e]; run;
    try (now rewrite <- !app_assoc).
  destruct (jsonrt.Unmarshal _ _ _) as [v [e|]]; run;
    try (now rewrite <- !app_assoc).
  destruct (_ || _); run; now rewrite <- !app_assoc.
Qed.

Lemma getWeather_run (env : Env) (city : string) (st : HandlerState) :
  ServiceB.getWeather env city st
  = (weatherResult env city, mkState (w st) (trace st ++ weatherTrace env city)).
Proof.
  unfold weatherResult, weatherTrace, ServiceB.getWeather, NewRequestWithContext.
  destruct st as [wr tr]. run.
  destruct (String.eqb _ _); run; try (now rewrite <- !app_assoc).
  destruct (urlParses env _); run; try (now rewrite <- !app_assoc).
  destruct (Do env _) as [[code [body [e|]]]|e]; run;
    try (now rewrite <- !app_assoc);
    destruct (negb _); run; try (now rewrite <- !app_assoc).
  destruct (jsonrt.Unmarshal _ _ _) as [v [e|]]; run;
    now rewrite <- !app_assoc.
Qed.

#[local] Arguments ServiceB.lookupCEP : simpl never.
#[local] Arguments ServiceB.getWeather : simpl never.

(** The answer of the Orchestration handler to an accepted request, by
    the results of the two calls. *)
Lemma handleWeather_accepted (env : Env) (r : http.Request) (req : CEPRequest) :
  accepted r req ->
  ServiceB.response env r =
    match lookupResult env (CEP req) with
    | (_, Some _) => (http.StatusInternalServerError, errorBody "internal error")
    | (None, None) => (http.StatusNotFound, errorBody "can not find zipcode")
    | (Some viaCEP, None) =>
        match weatherResult env (ServiceB.Localidade viaCEP) with
        | (_, Some _) =>
            (http.StatusInternalServerError, errorBody "failed to get weather")
        | (tempC, None) =>
            (http.StatusOK, weatherBody env (ServiceB.Localidade viaCEP) tempC)
        end
    end.
Proof.
  intros (Hm & Hd & Hv).
  unfold ServiceB.response, ServiceB.serve, ServiceB.handleWeather.
  rewrite Hm, Hd, Hv. run. rewrite lookupCEP_run.
  destruct (lookupResult env (CEP req)) as [[v|] [e|]]; run; try reflexivity.
  rewrite getWeather_run.
  destruct (weatherResult env _) as [t [e|]]; run; try reflexivity.
  unfold weatherBody, ServiceB.Encode_WeatherResponse.
  destruct (ServiceB.Marshal_WeatherResponse _ _); run; reflexivity.
Qed.

Lemma noWeatherEvent_app (l1 l2 : list Event) :
  noWeatherEvent (l1 ++ l2) = noWeatherEvent l1 && noWeatherEvent l2.
Proof. apply forallb_app. Qed.

Lemma noWeatherEvent_In (l : list Event) (e : Event) :
  noWeatherEvent l = true -> In e l -> isWeatherEvent e = false.
Proof.
  unfold noWeatherEvent. rewrite forallb_forall. intros H Hin.
  apply negb_true_iff. now apply H.
Qed.

(** A list that starts with events [p] of another kind can only be split
    at an event of the kind after [p]. *)
Lemma split_after_prefix (p rest l1 l2 : list Event) (e : Event) :
  (p ++ rest = l1 ++ e :: l2)%list ->
  noWeatherEvent p = true ->
  isWeatherEvent e = true ->
  exists l1', l1 = (p ++ l1')%list /\ rest = (l1' ++ e :: l2)%list.
Proof.
  revert l1. induction p as [|a p IH]; intros l1 Heq Hp He.
  - exists l1. split; [reflexivity|exact Heq].
  - cbn in Hp. apply andb_true_iff in Hp as [Ha Hp].
    destruct l1 as [|b l1]; cbn in Heq; injection Heq as Hab Heq.
    + subst a. rewrite He in Ha. discriminate.
    + subst b. destruct (IH l1 Heq Hp He) as (l1' & -> & Hrest).
      exists l1'. split; [reflexivity|exact Hrest].
Qed.

Lemma lookupTrace_noWeather (env : Env) (cep : string) :
  noWeatherEvent (lookupTrace env cep) = true.
Proof.
  unfold lookupTrace, ServiceB.lookupCEP, NewRequestWithContext. run.
  destruct (urlParses env _); run; [|reflexivity].
  destruct (Do env _) as [[code [body [e|]]]|e]; run; try reflexivity.
  destruct (jsonrt.Unmarshal _ _ _) as [v [e|]]; run; try reflexivity.
  destruct (_ || _); run; reflexivity.
Qed.

(** A found city comes with a completed round trip to ViaCEP. *)
Lemma lookupResult_found (env : Env) (cep : string) (v : ServiceB.ViaCEPResponse) :
  lookupResult env cep = (Some v, None) ->
  In (RoundTrip (viaCEPRequest cep)) (lookupTrace env cep) /\
  In (SpanEnd ServiceB.lookupSpan) (lookupTrace env cep) /\
  ServiceB.Localidade v <> EmptyString /\
  ServiceB.Erro v <> "true".
Proof.
  unfold lookupResult, lookupTrace, ServiceB.lookupCEP, NewRequestWithContext,
    viaCEPRequest.
  run.
  destruct (urlParses env _); run; [|discriminate].
  destruct (Do env _) as [[code [body [e|]]]|e]; run; try discriminate.
  destruct (jsonrt.Unmarshal _ _ _) as [v' [e|]]; run; try discriminate.
  destruct (String.eqb (ServiceB.Erro v') "true") eqn:He; run; [discriminate|].
  destruct (String.eqb (ServiceB.Localidade v') EmptyString) eqn:Hl; run;
    [discriminate|].
  intros [= ->].
  apply String.eqb_neq in He, Hl. cbn. tauto.
Qed.

(** Whatever [getWeather city] leaves behind names [city]. *)
Lemma weatherTrace_city (env : Env) (city : string) (e : Event) :
  In e (weatherTrace env city) ->
  (forall c, e = SetAttributes ServiceB.weatherSpan "city" (AString c) -> c = city) /\
  (forall wreq, e = RoundTrip wreq -> wreq = weatherRequest env city).
Proof.
  unfold weatherTrace, ServiceB.getWeather, NewRequestWithContext, weatherRequest,
    weatherURL.
  run.
  assert (Hfin : forall l : list Event,
             In e l ->
             Forall (fun x =>
               (forall c, x = SetAttributes ServiceB.weatherSpan "city" (AString c)
                          -> c = city) /\
               (forall wreq, x = RoundTrip wreq ->
                  wreq = http.mkRequest http.MethodGet
                    ("https://api.weatherapi.com/v1/current.json?key="
                       ++ Getenv env "WEATHER_API_KEY" ++ "&q="
                       ++ url.QueryEscape city ++ "&aqi=no") [] EmptyString)) l ->
             (forall c, e = SetAttributes ServiceB.weatherSpan "city" (AString c)
                        -> c = city) /\
             (forall wreq, e = RoundTrip wreq ->
                wreq = http.mkRequest http.MethodGet
                  ("https://api.weatherapi.com/v1/current.json?key="
                     ++ Getenv env "WEATHER_API_KEY" ++ "&q="
                     ++ url.QueryEscape city ++ "&aqi=no") [] EmptyString)).
  { intros l Hin Hall. rewrite Forall_forall in Hall. now apply Hall. }
  intro Hin. apply (Hfin _ Hin). clear Hin Hfin.
  repeat (run; break_match);
    run;
    repeat (apply Forall_cons; [split; intros ? [=]; subst; reflexivity|]);
    apply Forall_nil.
Qed.

Lemma handleWeather_trace (env : Env) (r : http.Request) (req : CEPRequest) :
  accepted r req ->
  exists tail,
    trace (ServiceB.serve env r) =
      (([SpanStart ServiceB.span;
         SetAttributes ServiceB.span "cep" (AString (CEP req))]
        ++ lookupTrace env (CEP req))
       ++ match lookupResult env (CEP req) with
          | (Some viaCEP, None) => weatherTrace env (ServiceB.Localidade viaCEP)
          | _ => []
          end
       ++ tail)%list
    /\ noWeatherEvent tail = true.
Proof.
  intros (Hm & Hd & Hv).
  unfold ServiceB.serve, ServiceB.handleWeather.
  rewrite Hm, Hd, Hv. run. rewrite lookupCEP_run.
  destruct (lookupResult env (CEP req)) as [[v|] [e|]]; run;
    try (eexists; split; [now rewrite <- !app_assoc|reflexivity]).
  rewrite getWeather_run.
  destruct (weatherResult env _) as [t [e|]]; run;
    try (eexists; split; [now rewrite <- !app_assoc|reflexivity]).
  unfold ServiceB.Encode_WeatherResponse.
  destruct (ServiceB.Marshal_WeatherResponse _ _); run;
    (eexists; split; [now rewrite <- !app_assoc|reflexivity]).
Qed.

(** A request that is not accepted reaches neither collaborator. *)
Lemma handleWeather_rejected_trace (env : Env) (r : http.Request) :
  (forall req, ~ accepted r req) ->
  noWeatherEvent (trace (ServiceB.serve env r)) = true.
Proof.
  intro Hrej. unfold ServiceB.serve, ServiceB.handleWeather. run.
  destruct (String.eqb (http.Method r) http.MethodPost) eqn:Hm; run;
    [|reflexivity].
  destruct (jsonrt.Decode _ _ _) as [req [e|]] eqn:Hd; run; [reflexivity|].
  destruct (ServiceB.validateCEP (CEP req)) eqn:Hv; run; [|reflexivity].
  exfalso. apply (Hrej req). apply String.eqb_eq in Hm. now repeat split.
Qed.

(** What [lookupCEP] returns, by what the environment answers. *)
Lemma lookupResult_cases (env : Env) (cep : string) :
  lookupResult env cep =
    if urlParses env (http.URL (viaCEPRequest cep)) then
      match Do env (viaCEPRequest cep) with
      | inr err => (None, Some err)
      | inl resp =>
          match http.RespBody resp with
          | (_, Some err) => (None, Some err)
          | (body, None) =>
              match jsonrt.Unmarshal ServiceB.ViaCEPResponse_fields body
                                     ServiceB.ViaCEPResponse_zero with
              | (_, Some err) => (None, Some err)
              | (viaCEP, None) =>
                  if String.eqb (ServiceB.Erro viaCEP) "true"
                     || String.eqb (ServiceB.Localidade viaCEP) EmptyString
                  then (None, None)
                  else (Some viaCEP, None)
              end
          end
      end
    else (None, Some (Errorf "parse url")).
Proof.
  unfold lookupResult, ServiceB.lookupCEP, NewRequestWithContext, viaCEPRequest.
  run.
  destruct (urlParses env _); run; [|reflexivity].
  destruct (Do env _) as [[code [body [e|]]]|e]; run; try reflexivity.
  destruct (jsonrt.Unmarshal _ _ _) as [v [e|]]; run; try reflexivity.
  destruct (_ || _); run; reflexivity.
Qed.

(** What [getWeather] returns, by what the environment answers. *)
Lemma weatherResult_cases (env : Env) (city : string) :
  weatherResult env city =
    if String.eqb (Getenv env "WEATHER_API_KEY") EmptyString then
      (0%float, Some (Errorf "WEATHER_API_KEY not set"))
    else if urlParses env (http.URL (weatherRequest env city)) then
      match Do env (weatherRequest env city) with
      | inr err => (0%float, Some err)
      | inl resp =>
          if negb (Z.eqb (http.StatusCode resp) http.StatusOK) then
            (0%float,
             Some (Errorf ("weather API returned status: "
                             ++ ServiceB.itoa (http.StatusCode resp))))
          else
            match http.RespBody resp with
            | (_, Some err) => (0%float, Some err)
            | (body, None) =>
                match jsonrt.Unmarshal (ServiceB.WeatherAPIResponse_fields env) body
                                       ServiceB.WeatherAPIResponse_zero with
                | (_, Some err) => (0%float, Some err)
                | (weatherResp, None) =>
                    (ServiceB.Current_TempC (ServiceB.Current weatherResp), None)
                end
            end
      end
    else (0%float, Some (Errorf "parse url")).
Proof.
  unfold weatherResult, ServiceB.getWeather, NewRequestWithContext,
    weatherRequest, weatherURL.
  run.
  destruct (Getenv env _) as [|k0 key]; run; [reflexivity|].
  destruct (urlParses env _); run; [|reflexivity].
  destruct (Do env _) as [[code [body [e|]]]|e]; run; try reflexivity;
    destruct (negb _); run; try reflexivity.
  destruct (jsonrt.Unmarshal _ _ _) as [v [e|]]; run; reflexivity.
Qed.

(** ** The Orchestration handler: the outcome of the address lookup *)

Lemma lookupNotFound_result (env : Env) (cep : string) :
  lookupNotFound env cep <-> lookupResult env cep = (None, None).
Proof.
  rewrite lookupResult_cases. unfold lookupNotFound. split.
  - intros (-> & resp & body & v & -> & -> & -> & Hv).
    destruct Hv as [->| ->]; cbn; [now rewrite orb_true_r|reflexivity].
  - destruct (urlParses env _); [|discriminate].
    destruct (Do env _) as [resp|e]; [|discriminate].
    destruct (http.RespBody resp) as [body [e|]] eqn:Hb; [discriminate|].
    destruct (jsonrt.Unmarshal _ _ _) as [v [e|]] eqn:Hu; [discriminate|].
    destruct (String.eqb (ServiceB.Erro v) "true") eqn:He; cbn [orb].
    + intros _. split; [reflexivity|]. exists resp, body, v.
      apply String.eqb_eq in He. auto.
    + destruct (String.eqb (ServiceB.Localidade v) EmptyString) eqn:Hl;
        [|discriminate].
      intros _. split; [reflexivity|]. exists resp, body, v.
      apply String.eqb_eq in Hl. auto.
Qed.

Lemma lookupFailed_result (env : Env) (cep : string) :
  lookupFailed env cep -> exists err, lookupResult env cep = (None, Some err).
Proof.
  rewrite lookupResult_cases.
  intros (-> & [(err & ->)|[(resp & body & err & -> & ->)
                           |(resp & body & v & err & -> & -> & ->)]]);
    eexists; reflexivity.
Qed.

Lemma errorBody_text (msg : string) :
  jsonrt.escapeString msg = msg -> errorBody msg = messageJSON msg ++ newline.
Proof.
  intro H. unfold errorBody, Marshal_ErrorResponse, jsonrt.member,
    jsonrt.encodeString, messageJSON, Scenario.object1.
  cbn [Message]. rewrite H. cbn.
  now rewrite !append_assoc.
Qed.

(** C3. In the Orchestration handler a not-found answer of the address
    lookup (an empty locality or the flag set) gives 404 with the message
    "can not find zipcode", a transport or parse error of that call gives
    500 with the message "internal error", and the two status codes
    differ. *)
Theorem lookup_notfound_404_error_500
  (env1 env2 : Env) (r1 r2 : http.Request) (req1 req2 : CEPRequest) :
  accepted r1 req1 -> lookupNotFound env1 (CEP req1) ->
  accepted r2 req2 -> lookupFailed env2 (CEP req2) ->
  ServiceB.response env1 r1
    = (404%Z, messageJSON "can not find zipcode" ++ newline) /\
  ServiceB.response env2 r2
    = (500%Z, messageJSON "internal error" ++ newline) /\
  fst (ServiceB.response env1 r1) <> fst (ServiceB.response env2 r2).
Proof.
  intros Ha1 Hnf Ha2 Hf.
  apply lookupNotFound_result in Hnf.
  apply lookupFailed_result in Hf as [err Hf].
  rewrite (handleWeather_accepted env1 r1 req1 Ha1), Hnf.
  rewrite (handleWeather_accepted env2 r2 req2 Ha2), Hf.
  rewrite !errorBody_text by reflexivity.
  repeat split. cbn. discriminate.
Qed.

Lemma lookup_notfound_404_error_500_witness :
  ServiceB.response (Scenario.world "key" Scenario.notFound Scenario.sunny)
                    (Scenario.post "/weather" "00000000")
    = (404%Z, messageJSON "can not find zipcode" ++ newline) /\
  ServiceB.response (Scenario.world "key" Scenario.down Scenario.sunny)
                    (Scenario.post "/weather" "01310100")
    = (500%Z, messageJSON "internal error" ++ newline) /\
  fst (ServiceB.response (Scenario.world "key" Scenario.notFound Scenario.sunny)
                         (Scenario.post "/weather" "00000000"))
  <> fst (ServiceB.response (Scenario.world "key" Scenario.down Scenario.sunny)
                            (Scenario.post "/weather" "01310100")).
Proof.
  apply (lookup_notfound_404_error_500 _ _ _ _
           (mkCEPRequest "00000000") (mkCEPRequest "01310100")).
  - repeat split; vm_compute; reflexivity.
  - split; [reflexivity|].
    eexists _, _, _.
    split; [reflexivity|]. split; [reflexivity|].
    split; [vm_compute; reflexivity|]. right. reflexivity.
  - repeat split; vm_compute; reflexivity.
  - split; [reflexivity|]. left. eexists. reflexivity.
Defined.

(** ** The Orchestration handler: how [lookupCEP] classifies an answer *)

(** C10. [lookupCEP] answers not-found exactly when the collaborator's body
    unmarshals into [ViaCEPResponse] and its [erro] is the string "true"
    or its [localidade] is empty.  [Erro] is declared a string, so a body
    whose [erro] member is a JSON boolean does not unmarshal: the lookup
    returns an error and the handler answers 500 "internal error", not
    404. *)
Theorem lookupCEP_classification (env : Env) (cep : string) :
  (lookupResult env cep = (None, None) <-> lookupNotFound env cep) /\
  (forall resp body members key b,
      urlParses env (http.URL (viaCEPRequest cep)) = true ->
      Do env (viaCEPRequest cep) = inl resp ->
      http.RespBody resp = (body, None) ->
      json.checkValid body = Some (json.Object members) ->
      In (key, json.Bool b) members ->
      jsonrt.equalFold "erro" key = true ->
      (exists viaCEP err,
          jsonrt.Unmarshal ServiceB.ViaCEPResponse_fields body
                           ServiceB.ViaCEPResponse_zero = (viaCEP, Some err)) /\
      (exists err, lookupResult env cep = (None, Some err)) /\
      (forall r req,
          accepted r req -> CEP req = cep ->
          ServiceB.response env r
            = (500%Z, messageJSON "internal error" ++ newline))).
Proof.
  split; [symmetry; apply lookupNotFound_result|].
  intros resp body members key b Hu Hd Hb Hvalid Hin Hkey.
  assert (Hun : exists viaCEP err,
             jsonrt.Unmarshal ServiceB.ViaCEPResponse_fields body
                              ServiceB.ViaCEPResponse_zero = (viaCEP, Some err)).
  { unfold jsonrt.Unmarshal. rewrite Hvalid. cbn [jsonrt.intoStruct].
    destruct (findField_found ServiceB.ViaCEPResponse_fields
                (nth 6 ServiceB.ViaCEPResponse_fields
                     (EmptyString, fun _ t => (t, None))) key) as [f Hf];
      [cbn; tauto|exact Hkey|].
    pose proof (object_type_error ServiceB.ViaCEPResponse_fields members
                  ServiceB.ViaCEPResponse_zero key (json.Bool b) f Hin Hf
                  (fun t' => ViaCEPResponse_no_bool key f b t' Hf)) as Herr.
    destruct (jsonrt.object _ _ _) as [v [e|]]; [eauto|].
    now contradiction Herr. }
  destruct Hun as (v & err & Hun).
  assert (Hres : lookupResult env cep = (None, Some err)).
  { rewrite lookupResult_cases, Hu, Hd, Hb, Hun. reflexivity. }
  split; [eauto|]. split; [eauto|].
  intros r req Ha <-.
  rewrite (handleWeather_accepted env r req Ha), Hres.
  now rewrite errorBody_text by reflexivity.
Qed.

(** The two spellings of the flag, run: the string gives 404, the boolean
    gives 500. *)
Example erro_string_and_boolean :
  let r := Scenario.post "/weather" "00000000" in
  ServiceB.response (Scenario.world "key" Scenario.notFound Scenario.sunny) r
    = (404%Z, messageJSON "can not find zipcode" ++ newline) /\
  ServiceB.response
    (Scenario.world "key"
       (Scenario.answer 200 ("{" ++ jsonrt.member "erro" "true" ++ "}"))
       Scenario.sunny) r
    = (500%Z, messageJSON "internal error" ++ newline).
Proof. cbv zeta. split; vm_compute; reflexivity. Qed.

(** ** The Orchestration handler: the weather call *)

(** [getWeather] returns an error exactly in the cases of
    [WeatherFailure]. *)
Lemma weatherResult_error_iff (env : Env) (city : string) :
  WeatherFailure env city <->
  exists t err, weatherResult env city = (t, Some err).
Proof.
  rewrite weatherResult_cases. split.
  - intros [Hk|Hk Hu|err Hk Hu Hd|resp Hk Hu Hd Hs|resp body err Hk Hu Hd Hs Hb
           |resp body wr err Hk Hu Hd Hs Hb Hp].
    + rewrite Hk. cbn. eauto.
    + apply String.eqb_neq in Hk. rewrite Hk, Hu. eauto.
    + apply String.eqb_neq in Hk. rewrite Hk, Hu, Hd. eauto.
    + apply String.eqb_neq in Hk. rewrite Hk, Hu, Hd.
      apply Z.eqb_neq in Hs. unfold http.StatusOK. rewrite Hs. cbn. eauto.
    + apply String.eqb_neq in Hk. rewrite Hk, Hu, Hd, Hb.
      apply Z.eqb_eq in Hs. unfold http.StatusOK. rewrite Hs. cbn. eauto.
    + apply String.eqb_neq in Hk. rewrite Hk, Hu, Hd, Hb, Hp.
      apply Z.eqb_eq in Hs. unfold http.StatusOK. rewrite Hs. cbn. eauto.
  - destruct (String.eqb (Getenv env "WEATHER_API_KEY") EmptyString) eqn:Hk.
    { intros _. apply MissingCredential. now apply String.eqb_eq. }
    apply String.eqb_neq in Hk.
    destruct (urlParses env _) eqn:Hu.
    2: { intros _. now apply RequestConstruction. }
    destruct (Do env _) as [resp|err] eqn:Hd.
    2: { intros _. now apply (TransportError env city err). }
    unfold http.StatusOK.
    destruct (Z.eqb (http.StatusCode resp) 200) eqn:Hs; cbn [negb].
    2: { intros _. apply Z.eqb_neq in Hs.
         now apply (NonSuccessStatus env city resp). }
    apply Z.eqb_eq in Hs.
    destruct (http.RespBody resp) as [body [err|]] eqn:Hb.
    { intros _. now apply (ReadError env city resp body err). }
    destruct (jsonrt.Unmarshal _ _ _) as [wr [err|]] eqn:Hp.
    { intros _. now apply (ParseError env city resp body wr err). }
    intros (t & err & [=]).
Qed.

(** C5. In the Orchestration handler, once the address lookup has found a
    city, every failure of the Weather call (the credential
    WEATHER_API_KEY is missing, the transport fails, the provider answers
    a status other than 200, the body does not parse; also a request that
    cannot be built and a body that cannot be read) gives 500 with the
    message "failed to get weather"; and these are all the cases in which
    [getWeather] returns an error. *)
Theorem weather_failure_500
  (env : Env) (r : http.Request) (req : CEPRequest)
  (viaCEP : ServiceB.ViaCEPResponse) :
  accepted r req ->
  lookupResult env (CEP req) = (Some viaCEP, None) ->
  (WeatherFailure env (ServiceB.Localidade viaCEP) ->
   ServiceB.response env r
     = (500%Z, messageJSON "failed to get weather" ++ newline)) /\
  (WeatherFailure env (ServiceB.Localidade viaCEP) <->
   exists t err, weatherResult env (ServiceB.Localidade viaCEP) = (t, Some err)).
Proof.
  intros Ha Hl. split; [|apply weatherResult_error_iff].
  intro Hf. apply weatherResult_error_iff in Hf as (t & err & Hw).
  rewrite (handleWeather_accepted env r req Ha), Hl, Hw.
  now rewrite errorBody_text by reflexivity.
Qed.

Lemma weather_failure_500_witness :
  WeatherFailure (Scenario.world EmptyString Scenario.found Scenario.sunny) "Recife" /\
  ServiceB.response (Scenario.world EmptyString Scenario.found Scenario.sunny)
                    (Scenario.post "/weather" "50030230")
    = (500%Z, messageJSON "failed to get weather" ++ newline).
Proof.
  assert (F : WeatherFailure
                (Scenario.world EmptyString Scenario.found Scenario.sunny) "Recife")
    by (apply MissingCredential; reflexivity).
  split; [exact F|].
  refine (proj1 (weather_failure_500
                   (Scenario.world EmptyString Scenario.found Scenario.sunny)
                   (Scenario.post "/weather" "50030230") (mkCEPRequest "50030230")
                   (ServiceB.mkViaCEP EmptyString EmptyString EmptyString EmptyString
                                      "Recife" EmptyString EmptyString) _ _) F).
  - repeat split; vm_compute; reflexivity.
  - vm_compute. reflexivity.
Defined.

(** The four causes the specification lists, each run: the credential is
    missing; the transport fails; the provider answers 401; the body is
    not JSON. *)
Example weather_failure_runs :
  let r := Scenario.post "/weather" "50030230" in
  let failed := (500%Z, messageJSON "failed to get weather" ++ newline) in
  ServiceB.response (Scenario.world EmptyString Scenario.found Scenario.sunny) r = failed /\
  ServiceB.response (Scenario.world "key" Scenario.found Scenario.down) r = failed /\
  ServiceB.response (Scenario.world "key" Scenario.found
                       (Scenario.answer 401 (messageJSON "API key is invalid."))) r
    = failed /\
  ServiceB.response (Scenario.world "key" Scenario.found
                       (Scenario.answer 200 "<html>")) r = failed /\
  ServiceB.response (Scenario.world "key" Scenario.found Scenario.sunny) r
    = (200%Z, "{" ++ jsonrt.member "city" (jsonrt.q ++ "Recife" ++ jsonrt.q)
                 ++ "," ++ jsonrt.member "temp_C" "25"
                 ++ "," ++ jsonrt.member "temp_F" "77"
                 ++ "," ++ jsonrt.member "temp_K" "298" ++ "}" ++ newline).
Proof. cbv zeta. repeat split; vm_compute; reflexivity. Qed.

(** ** The Orchestration handler: lookup first, weather second *)

Lemma accepted_dec (r : http.Request) :
  (exists req, accepted r req) \/ (forall req, ~ accepted r req).
Proof.
  unfold accepted.
  destruct (String.eqb (http.Method r) http.MethodPost) eqn:Hm.
  2: { right. intros req (H & _). apply String.eqb_neq in Hm. contradiction. }
  apply String.eqb_eq in Hm.
  destruct (jsonrt.Decode CEPRequest_fields (http.Body r) (mkCEPRequest EmptyString))
    as [req [e|]] eqn:Hd.
  { right. intros req' (_ & [=] & _). }
  destruct (ServiceB.validateCEP (CEP req)) eqn:Hv.
  - left. exists req. auto.
  - right. intros req' (_ & [= <-] & Hv'). congruence.
Qed.

(** [getWeather city] opens its span and records [city] before anything
    else. *)
Lemma weatherTrace_head (env : Env) (city : string) :
  exists rest,
    weatherTrace env city =
      SpanStart ServiceB.weatherSpan
        :: SetAttributes ServiceB.weatherSpan "city" (AString city) :: rest.
Proof.
  unfold weatherTrace, ServiceB.getWeather, NewRequestWithContext.
  repeat (run; break_match); run; eexists; reflexivity.
Qed.

(** C8. Whatever the request and the environment, an event of the Weather
    call (the span of [getWeather], a request to the weather provider) only
    occurs in a run of the Orchestration handler when the address lookup
    has returned a found city; the lookup's round trip and the end of its
    span come before it; the city given to [getWeather], and sent to the
    provider, is the locality the lookup returned.  When the lookup
    returns an error or not-found, there is no such event; when it returns
    a city, the call is made. *)
Theorem weather_only_after_found_lookup (env : Env) (r : http.Request) :
  (forall l1 e l2,
      trace (ServiceB.serve env r) = (l1 ++ e :: l2)%list ->
      isWeatherEvent e = true ->
      exists req viaCEP,
        accepted r req /\
        lookupResult env (CEP req) = (Some viaCEP, None) /\
        ServiceB.Localidade viaCEP <> EmptyString /\
        In (RoundTrip (viaCEPRequest (CEP req))) l1 /\
        In (SpanEnd ServiceB.lookupSpan) l1 /\
        (forall c,
            e = SetAttributes ServiceB.weatherSpan "city" (AString c) ->
            c = ServiceB.Localidade viaCEP) /\
        (forall wreq,
            e = RoundTrip wreq ->
            wreq = weatherRequest env (ServiceB.Localidade viaCEP))) /\
  (forall req,
      accepted r req ->
      (forall viaCEP, lookupResult env (CEP req) <> (Some viaCEP, None)) ->
      noWeatherEvent (trace (ServiceB.serve env r)) = true) /\
  (forall req viaCEP,
      accepted r req ->
      lookupResult env (CEP req) = (Some viaCEP, None) ->
      In (SetAttributes ServiceB.weatherSpan "city"
                        (AString (ServiceB.Localidade viaCEP)))
         (trace (ServiceB.serve env r))).
Proof.
  split; [|split].
  - intros l1 e l2 Htr He.
    destruct (accepted_dec r) as [[req Ha]|Hrej].
    2: { pose proof (handleWeather_rejected_trace env r Hrej) as Hno.
         rewrite Htr in Hno.
         rewrite (noWeatherEvent_In _ e Hno) in He; [discriminate|].
         apply in_elt. }
    destruct (handleWeather_trace env r req Ha) as (tail & Heq & Htail).
    rewrite Htr in Heq.
    symmetry in Heq.
    apply split_after_prefix in Heq as (l1' & -> & Hrest); [|cbn|exact He].
    2: { apply lookupTrace_noWeather. }
    destruct (lookupResult env (CEP req)) as [[v|] [err|]] eqn:Hl;
      try (exfalso;
           assert (Hin : In e tail)
             by (cbn [app] in Hrest; rewrite Hrest; apply in_elt);
           rewrite (noWeatherEvent_In _ e Htail Hin) in He; discriminate).
    destruct (lookupResult_found env (CEP req) v Hl) as (Hrt & Hend & Hloc & _).
    exists req, v. split; [exact Ha|]. split; [exact Hl|].
    split; [exact Hloc|].
    split; [apply in_or_app; left; right; right; exact Hrt|].
    split; [apply in_or_app; left; right; right; exact Hend|].
    assert (Hin : In e (weatherTrace env (ServiceB.Localidade v))).
    { assert (Hin : In e (weatherTrace env (ServiceB.Localidade v) ++ tail)%list)
        by (rewrite Hrest; apply in_elt).
      apply in_app_or in Hin as [Hin|Hin]; [exact Hin|].
      rewrite (noWeatherEvent_In _ e Htail Hin) in He. discriminate. }
    apply (weatherTrace_city env _ e Hin).
  - intros req Ha Hnone.
    destruct (handleWeather_trace env r req Ha) as (tail & -> & Htail).
    rewrite !noWeatherEvent_app, lookupTrace_noWeather, Htail.
    destruct (lookupResult env (CEP req)) as [[v|] [err|]] eqn:Hl;
      try reflexivity.
    now contradiction (Hnone v).
  - intros req v Ha Hl.
    destruct (handleWeather_trace env r req Ha) as (tail & -> & _).
    rewrite Hl.
    destruct (weatherTrace_head env (ServiceB.Localidade v)) as [rest ->].
    apply in_or_app. right. apply in_or_app. left. right. left. reflexivity.
Qed.

(** ** The Edge handler *)

(** The run of the Edge handler on an accepted request. *)
Lemma handleCEP_accepted (env : Env) (r : http.Request) (req : CEPRequest) :
  acceptedByEdge r req ->
  ServiceA.response env r =
    (if urlParses env (http.URL (forwardRequest env req)) then
       match Do env (forwardRequest env req) with
       | inr _ => (http.StatusServiceUnavailable, errorBody "service unavailable")
       | inl resp => (http.StatusCode resp, fst (http.RespBody resp))
       end
     else (http.StatusInternalServerError, errorBody "internal error")) /\
  (forall q, In (RoundTrip q) (trace (ServiceA.serve env r)) ->
             q = forwardRequest env req) /\
  (urlParses env (http.URL (forwardRequest env req)) = true ->
   In (RoundTrip (forwardRequest env req)) (trace (ServiceA.serve env r))).
Proof.
  intros (Hm & Hd & Hv).
  unfold ServiceA.response, ServiceA.serve, ServiceA.handleCEP,
    NewRequestWithContext, forwardRequest, serviceBURL.
  rewrite Hm, Hd, Hv. run.
  destruct (urlParses env _); run.
  - destruct (Do env _) as [resp|err]; run;
      (split; [reflexivity|]; split;
       [intros q Hq; repeat (destruct Hq as [Hq|Hq]; [try discriminate|]);
        [now injection Hq as <-|contradiction]
       |intros _; do 6 right; left; reflexivity]).
  - split; [reflexivity|]. split; [|discriminate].
    intros q Hq; repeat (destruct Hq as [Hq|Hq]; [discriminate|]).
    contradiction.
Qed.

(** C4. Whatever response the Edge handler receives from the
    Orchestration service, with whatever status code, it answers its
    caller with that status code and with the bytes of that body as it
    read them (an error that ends the reading is dropped, the bytes read
    before it are relayed). *)
Theorem edge_relays_response
  (env : Env) (r : http.Request) (req : CEPRequest) (resp : http.Response) :
  acceptedByEdge r req ->
  urlParses env (http.URL (forwardRequest env req)) = true ->
  Do env (forwardRequest env req) = inl resp ->
  ServiceA.response env r = (http.StatusCode resp, fst (http.RespBody resp)).
Proof.
  intros Ha Hu Hd.
  destruct (handleCEP_accepted env r req Ha) as (-> & _).
  now rewrite Hu, Hd.
Qed.

Lemma edge_relays_response_witness :
  ServiceA.response
    (mkEnv (fun _ => EmptyString) (fun _ => true)
           (fun _ => Scenario.answer 418 "I am a teapot")
           [] (fun _ => None) (fun _ => EmptyString))
    (Scenario.post "/cep" "01310100")
  = (418%Z, "I am a teapot").
Proof.
  apply (edge_relays_response _ _ (mkCEPRequest "01310100")
           (http.mkResponse 418 ("I am a teapot", None))).
  - repeat split; vm_compute; reflexivity.
  - reflexivity.
  - reflexivity.
Defined.

(** C7. When the call of the Edge handler to the Orchestration service
    fails in transport, the Edge handler answers 503 with the message
    "service unavailable". *)
Theorem edge_unavailable_503
  (env : Env) (r : http.Request) (req : CEPRequest) (err : error) :
  acceptedByEdge r req ->
  urlParses env (http.URL (forwardRequest env req)) = true ->
  Do env (forwardRequest env req) = inr err ->
  ServiceA.response env r
    = (503%Z, messageJSON "service unavailable" ++ newline).
Proof.
  intros Ha Hu Hd.
  destruct (handleCEP_accepted env r req Ha) as (-> & _).
  rewrite Hu, Hd. now rewrite errorBody_text by reflexivity.
Qed.

Lemma edge_unavailable_503_witness :
  ServiceA.response
    (mkEnv (fun _ => EmptyString) (fun _ => true) (fun _ => Scenario.down)
           [] (fun _ => None) (fun _ => EmptyString))
    (Scenario.post "/cep" "01310100")
  = (503%Z, messageJSON "service unavailable" ++ newline).
Proof.
  apply (edge_unavailable_503 _ _ (mkCEPRequest "01310100")
           (NetError "connection refused")).
  - repeat split; vm_compute; reflexivity.
  - reflexivity.
  - reflexivity.
Defined.

(** ** The Edge handler: what is forwarded *)

(** C9. For a request the Edge handler accepts, the body it forwards is
    the marshalled [CEPRequest], which is the text [{"cep":"<cep>"}] with
    the validated postal code and nothing else of the caller's body; the
    handler sends no other request, and sends this one whenever it can be
    built. *)
Theorem edge_forwards_cep_only
  (env : Env) (r : http.Request) (req : CEPRequest) :
  acceptedByEdge r req ->
  Marshal_CEPRequest req = cepJSON (CEP req) /\
  (forall q, In (RoundTrip q) (trace (ServiceA.serve env r)) ->
             q = forwardRequest env req /\ http.Body q = cepJSON (CEP req)) /\
  (urlParses env (http.URL (forwardRequest env req)) = true ->
   In (RoundTrip (forwardRequest env req)) (trace (ServiceA.serve env r))).
Proof.
  intro Ha. pose proof Ha as (_ & _ & Hv).
  destruct (handleCEP_accepted env r req Ha) as (_ & Honly & Hsent).
  split; [exact (Marshal_valid req Hv)|]. split; [|exact Hsent].
  intros q Hq. rewrite (Honly q Hq). split; [reflexivity|].
  exact (Marshal_valid req Hv).
Qed.

Lemma edge_forwards_cep_only_witness :
  let env := Scenario.world "key" Scenario.found Scenario.sunny in
  let r := http.mkRequest http.MethodPost "/cep" []
             (" {" ++ jsonrt.member "name" "[1, 2]" ++ " , "
                   ++ jsonrt.member "cep" (jsonrt.q ++ "01310100" ++ jsonrt.q)
                   ++ "} trailing") in
  Marshal_CEPRequest (mkCEPRequest "01310100") = cepJSON "01310100" /\
  (forall q, In (RoundTrip q) (trace (ServiceA.serve env r)) ->
             q = forwardRequest env (mkCEPRequest "01310100") /\
             http.Body q = cepJSON "01310100") /\
  (urlParses env (http.URL (forwardRequest env (mkCEPRequest "01310100"))) = true ->
   In (RoundTrip (forwardRequest env (mkCEPRequest "01310100")))
      (trace (ServiceA.serve env r))).
Proof.
  cbv zeta.
  apply (edge_forwards_cep_only _ _ (mkCEPRequest "01310100")).
  repeat split; vm_compute; reflexivity.
Defined.

(** ** Both handlers: 422 "invalid zipcode" *)

Lemma invalidZipcode_not_accepted (r : http.Request) :
  http.Method r = http.MethodPost ->
  (invalidZipcode r <-> forall req, ~ accepted r req).
Proof.
  intro Hm. unfold invalidZipcode, accepted.
  destruct (jsonrt.Decode CEPRequest_fields (http.Body r) (mkCEPRequest EmptyString))
    as [req [e|]] eqn:Hd.
  - split; [intros _ req' (_ & [=] & _)|intros _; left; discriminate].
  - split.
    + intros [H|H] req' (_ & [= <-] & Hv); [now apply H|].
      change (ServiceB.validateCEP (CEP req)) with (ServiceA.validateCEP (CEP req))
        in Hv.
      congruence.
    + intro H. right. apply not_true_is_false. intro Hv. apply (H req). auto.
Qed.

(** The Orchestration handler answers 422 "invalid zipcode" exactly to the
    invalid requests. *)
Lemma handleWeather_invalid_iff (env : Env) (r : http.Request) :
  http.Method r = http.MethodPost ->
  (ServiceB.response env r = invalidAnswer <-> invalidZipcode r).
Proof.
  intro Hm. split.
  - intro Hresp. apply (invalidZipcode_not_accepted r Hm). intros req Ha.
    rewrite (handleWeather_accepted env r req Ha) in Hresp.
    unfold invalidAnswer in Hresp.
    destruct (lookupResult env (CEP req)) as [[v|] [e|]]; try discriminate.
    destruct (weatherResult env _) as [t [e|]]; discriminate.
  - unfold invalidZipcode, ServiceB.response, ServiceB.serve, ServiceB.handleWeather.
    rewrite Hm.
    destruct (jsonrt.Decode _ _ _) as [req [e|]]; run; [reflexivity|].
    intros [H|H]; [contradiction|].
    change (ServiceB.validateCEP (CEP req)) with (ServiceA.validateCEP (CEP req)).
    rewrite H. reflexivity.
Qed.

Lemma handleCEP_invalid (env : Env) (r : http.Request) :
  http.Method r = http.MethodPost ->
  invalidZipcode r -> ServiceA.response env r = invalidAnswer.
Proof.
  intro Hm.
  unfold invalidZipcode, ServiceA.response, ServiceA.serve, ServiceA.handleCEP.
  rewrite Hm.
  destruct (jsonrt.Decode _ _ _) as [req [e|]]; run; [reflexivity|].
  intros [H|H]; [contradiction|]. rewrite H. reflexivity.
Qed.

(** The Edge handler answers 422 "invalid zipcode" to the invalid requests
    and, besides, only by relaying that very answer. *)
Lemma handleCEP_invalid_iff (env : Env) (r : http.Request) :
  http.Method r = http.MethodPost ->
  (ServiceA.response env r = invalidAnswer <->
   invalidZipcode r \/ relayedInvalid env r).
Proof.
  intro Hm. split.
  - intro Hresp. destruct (accepted_dec r) as [[req Ha]|Hrej].
    + right. destruct (handleCEP_accepted env r req Ha) as (Heq & _).
      rewrite Heq in Hresp.
      destruct (urlParses env _) eqn:Hu; [|discriminate].
      destruct (Do env _) as [resp|err] eqn:Hd; [|discriminate].
      exists req, resp. auto.
    + left. now apply (invalidZipcode_not_accepted r Hm).
  - intros [Hinv|(req & resp & Ha & Hu & Hd & Hresp)].
    + now apply handleCEP_invalid.
    + destruct (handleCEP_accepted env r req Ha) as (-> & _).
      now rewrite Hu, Hd.
Qed.

(** C6. For a POST request, the Orchestration handler answers 422 with the
    body [{"message":"invalid zipcode"}] exactly when the body does not
    parse as a [CEPRequest] or the parsed postal code fails the validator.
    The Edge handler gives that same answer in both cases, whatever its
    environment; its only other way to that answer is to relay it, and
    forwarding to the Orchestration handler it never does, so there too
    the answer comes exactly in those two cases.  The answer is the same
    for the two causes. *)
Theorem invalid_zipcode_422 (edge orch : Env) (r : http.Request) :
  http.Method r = http.MethodPost ->
  (ServiceB.response orch r = invalidAnswer <-> invalidZipcode r) /\
  (invalidZipcode r -> ServiceA.response edge r = invalidAnswer) /\
  (ServiceA.response edge r = invalidAnswer <->
   invalidZipcode r \/ relayedInvalid edge r) /\
  (forwardsTo edge orch ->
   (ServiceA.response edge r = invalidAnswer <-> invalidZipcode r)).
Proof.
  intro Hm.
  split; [exact (handleWeather_invalid_iff orch r Hm)|].
  split; [exact (handleCEP_invalid edge r Hm)|].
  split; [exact (handleCEP_invalid_iff edge r Hm)|].
  intro Hfw. split; [|exact (handleCEP_invalid edge r Hm)].
  intro Hresp.
  apply (handleCEP_invalid_iff edge r Hm) in Hresp
    as [Hinv|(req & resp & Ha & _ & Hd & Hresp)]; [exact Hinv|].
  exfalso. pose proof Ha as (_ & _ & Hv).
  rewrite (Hfw (forwardRequest edge req)) in Hd. injection Hd as <-.
  unfold answeredBy in Hresp. cbn [http.StatusCode http.RespBody fst] in Hresp.
  rewrite <- surjective_pairing in Hresp.
  apply (proj1 (handleWeather_invalid_iff orch (forwardRequest edge req) eq_refl))
    in Hresp.
  pose proof (proj1 (invalidZipcode_not_accepted (forwardRequest edge req) eq_refl)
                    Hresp) as Hrej.
  apply (Hrej req). repeat split; [|exact Hv].
  exact (Decode_Marshal req Hv).
Qed.

Lemma invalid_zipcode_422_witness :
  let orch := Scenario.world "key" Scenario.found Scenario.sunny in
  let edge := mkEnv (fun _ => EmptyString) (fun _ => true)
                    (fun q => inl (answeredBy orch q))
                    [] (fun _ => None) (fun _ => EmptyString) in
  let r := Scenario.post "/cep" "123" in
  (ServiceB.response orch r = invalidAnswer <-> invalidZipcode r) /\
  (invalidZipcode r -> ServiceA.response edge r = invalidAnswer) /\
  (ServiceA.response edge r = invalidAnswer <->
   invalidZipcode r \/ relayedInvalid edge r) /\
  (forwardsTo edge orch ->
   (ServiceA.response edge r = invalidAnswer <-> invalidZipcode r)).
Proof.
  cbv zeta. apply invalid_zipcode_422. reflexivity.
Defined.

(** The two causes and the accepted case, run through both handlers: a
    body that is not JSON, a postal code of three digits, and a valid
    request forwarded by the Edge handler to the Orchestration handler. *)
Example invalid_zipcode_runs :
  let orch := Scenario.world "key" Scenario.found Scenario.sunny in
  let edge := mkEnv (fun _ => EmptyString) (fun _ => true)
                    (fun q => inl (answeredBy orch q))
                    [] (fun _ => None) (fun _ => EmptyString) in
  let notJSON := http.mkRequest http.MethodPost "/cep" [] "cep=01310100" in
  ServiceA.response edge notJSON = invalidAnswer /\
  ServiceB.response orch notJSON = invalidAnswer /\
  ServiceA.response edge (Scenario.post "/cep" "123") = invalidAnswer /\
  ServiceB.response orch (Scenario.post "/weather" "123") = invalidAnswer /\
  fst (ServiceA.response edge (Scenario.post "/cep" "01310100")) = 200%Z /\
  ServiceA.response edge (Scenario.post "/cep" "01310100")
    = ServiceB.response orch (Scenario.post "/weather" "01310100").
Proof. cbv zeta. repeat split; vm_compute; reflexivity. Qed.

(** ** The scenarios of the specification, run *)

(** A valid request through the Edge handler into the Orchestration
    handler: the lookup resolves the city, the weather is 25.0 degrees. *)
Example scenario_success :
  let orch := Scenario.world "key"
                (Scenario.answer 200 (Scenario.object1 "localidade" Scenario.saoPaulo))
                Scenario.sunny in
  let edge := mkEnv (fun _ => EmptyString) (fun _ => true)
                    (fun q => inl (answeredBy orch q))
                    [] (fun _ => None) (fun _ => EmptyString) in
  ServiceA.response edge (Scenario.post "/cep" "01310100")
  = (200%Z,
     "{" ++ jsonrt.member "city" (jsonrt.q ++ Scenario.saoPaulo ++ jsonrt.q)
         ++ "," ++ jsonrt.member "temp_C" "25"
         ++ "," ++ jsonrt.member "temp_F" "77"
         ++ "," ++ jsonrt.member "temp_K" "298" ++ "}" ++ newline).
Proof. vm_compute. reflexivity. Qed.

(** The events of that run in the Orchestration handler: the lookup, then
    the weather call with the city the lookup returned. *)
Example scenario_trace :
  trace (ServiceB.serve (Scenario.world "key" Scenario.found Scenario.sunny)
                        (Scenario.post "/weather" "50030230"))
  = [ SpanStart "handle-weather-request";
      SetAttributes "handle-weather-request" "cep" (AString "50030230");
      SpanStart "lookup-cep-viacep";
      SetAttributes "lookup-cep-viacep" "cep" (AString "50030230");
      RoundTrip (http.mkRequest "GET" "https://viacep.com.br/ws/50030230/json/"
                                [] EmptyString);
      SetAttributes "lookup-cep-viacep" "http_status" (AInt 200);
      SetAttributes "lookup-cep-viacep" "cep_found" (ABool true);
      SetAttributes "lookup-cep-viacep" "city" (AString "Recife");
      SpanEnd "lookup-cep-viacep";
      SpanStart "get-weather-api";
      SetAttributes "get-weather-api" "city" (AString "Recife");
      RoundTrip (http.mkRequest "GET"
                   "https://api.weatherapi.com/v1/current.json?key=key&q=Recife&aqi=no"
                   [] EmptyString);
      SetAttributes "get-weather-api" "http_status" (AInt 200);
      SetAttributes "get-weather-api" "temp_c" (AFloat64 25);
      SpanEnd "get-weather-api";
      SetAttributes "handle-weather-request" "city" (AString "Recife");
      SetAttributes "handle-weather-request" "temp_c" (AFloat64 25);
      SetAttributes "handle-weather-request" "temp_f" (AFloat64 77);
      SetAttributes "handle-weather-request" "temp_k" (AFloat64 298);
      SpanEnd "handle-weather-request" ].
Proof. vm_compute. reflexivity. Qed.

(** Another method than POST: 405 and no body, from both handlers. *)
Example scenario_method_not_allowed :
  let env := Scenario.world "key" Scenario.found Scenario.sunny in
  let r := http.mkRequest "GET" "/cep" [] (cepJSON "01310100") in
  ServiceA.response env r = (405%Z, EmptyString) /\
  ServiceB.response env r = (405%Z, EmptyString).
Proof. split; vm_compute; reflexivity. Qed.

(** * Coverage beyond the claims *)

(** ** The method guard *)

Lemma roundTrips_app (l1 l2 : list Event) :
  roundTrips (l1 ++ l2) = (roundTrips l1 ++ roundTrips l2)%list.
Proof. apply flat_map_app. Qed.

Lemma handleCEP_not_post_state (env : Env) (r : http.Request) :
  http.Method r <> http.MethodPost ->
  ServiceA.serve env r
    = mkState (http.mkWriter [] (Some 405%Z) EmptyString)
              [SpanStart ServiceA.span; SpanEnd ServiceA.span].
Proof.
  intro Hm. apply String.eqb_neq in Hm.
  unfold ServiceA.serve, ServiceA.handleCEP. rewrite Hm. reflexivity.
Qed.

Lemma handleWeather_not_post_state (env : Env) (r : http.Request) :
  http.Method r <> http.MethodPost ->
  ServiceB.serve env r
    = mkState (http.mkWriter [] (Some 405%Z) EmptyString)
              [SpanStart ServiceB.span; SpanEnd ServiceB.span].
Proof.
  intro Hm. apply String.eqb_neq in Hm.
  unfold ServiceB.serve, ServiceB.handleWeather. rewrite Hm. reflexivity.
Qed.

(** X1. Any method other than POST: both handlers answer 405 with no body
    and no header, open and close their span, and send nothing out,
    whatever the body and the environment. *)
Theorem method_not_allowed (env : Env) (r : http.Request) :
  http.Method r <> http.MethodPost ->
  ServiceA.serve env r
    = mkState (http.mkWriter [] (Some 405%Z) EmptyString)
              [SpanStart ServiceA.span; SpanEnd ServiceA.span] /\
  ServiceB.serve env r
    = mkState (http.mkWriter [] (Some 405%Z) EmptyString)
              [SpanStart ServiceB.span; SpanEnd ServiceB.span].
Proof.
  intro Hm. split;
    [now apply handleCEP_not_post_state|now apply handleWeather_not_post_state].
Qed.

Lemma method_not_allowed_witness :
  ServiceA.serve (Scenario.world "key" Scenario.found Scenario.sunny)
                 (http.mkRequest "PUT" "/cep" [] (cepJSON "01310100"))
    = mkState (http.mkWriter [] (Some 405%Z) EmptyString)
              [SpanStart ServiceA.span; SpanEnd ServiceA.span] /\
  ServiceB.serve (Scenario.world "key" Scenario.found Scenario.sunny)
                 (http.mkRequest "PUT" "/cep" [] (cepJSON "01310100"))
    = mkState (http.mkWriter [] (Some 405%Z) EmptyString)
              [SpanStart ServiceB.span; SpanEnd ServiceB.span].
Proof. apply method_not_allowed. discriminate. Defined.

(** ** The answers of the Orchestration handler *)

Lemma handleWeather_not_post (env : Env) (r : http.Request) :
  http.Method r <> http.MethodPost ->
  ServiceB.response env r = (405%Z, EmptyString).
Proof.
  intro Hm. unfold ServiceB.response.
  now rewrite (handleWeather_not_post_state env r Hm).
Qed.

(** The answer to an accepted request, the error bodies as texts. *)
Lemma handleWeather_accepted_text (env : Env) (r : http.Request) (req : CEPRequest) :
  accepted r req ->
  ServiceB.response env r =
    match lookupResult env (CEP req) with
    | (_, Some _) => (500%Z, messageJSON "internal error" ++ newline)
    | (None, None) => (404%Z, messageJSON "can not find zipcode" ++ newline)
    | (Some viaCEP, None) =>
        match weatherResult env (ServiceB.Localidade viaCEP) with
        | (_, Some _) => (500%Z, messageJSON "failed to get weather" ++ newline)
        | (tempC, None) =>
            (200%Z, weatherBody env (ServiceB.Localidade viaCEP) tempC)
        end
    end.
Proof.
  intro Ha. rewrite (handleWeather_accepted env r req Ha).
  now rewrite !errorBody_text by reflexivity.
Qed.

(** X2. The Orchestration handler has six answers and no other: 405 with
    no body; 422 "invalid zipcode"; 500 "internal error"; 404 "can not
    find zipcode"; 500 "failed to get weather"; 200 with the weather
    body. *)
Theorem handleWeather_answers (env : Env) (r : http.Request) :
  ServiceB.response env r = (405%Z, EmptyString) \/
  ServiceB.response env r = (422%Z, messageJSON "invalid zipcode" ++ newline) \/
  ServiceB.response env r = (500%Z, messageJSON "internal error" ++ newline) \/
  ServiceB.response env r = (404%Z, messageJSON "can not find zipcode" ++ newline) \/
  ServiceB.response env r = (500%Z, messageJSON "failed to get weather" ++ newline) \/
  (exists viaCEP tempC,
      bothSucceed env r viaCEP tempC /\
      ServiceB.response env r
        = (200%Z, weatherBody env (ServiceB.Localidade viaCEP) tempC)).
Proof.
  destruct (String.eqb (http.Method r) http.MethodPost) eqn:Hm.
  2: { left. apply handleWeather_not_post. now apply String.eqb_neq. }
  apply String.eqb_eq in Hm.
  destruct (accepted_dec r) as [[req Ha]|Hrej].
  2: { right; left.
       apply (handleWeather_invalid_iff env r Hm).
       now apply (invalidZipcode_not_accepted r Hm). }
  rewrite (handleWeather_accepted_text env r req Ha).
  destruct (lookupResult env (CEP req)) as [[v|] [e|]] eqn:Hl; auto 8.
  destruct (weatherResult env (ServiceB.Localidade v)) as [t [e|]] eqn:Hw;
    auto 8.
  do 5 right. exists v, t. split; [|reflexivity]. exists req. auto.
Qed.

(** X3. The Orchestration handler answers 200 exactly when the request is
    accepted, the lookup finds a city and the weather call returns a
    temperature. *)
Theorem handleWeather_200_iff (env : Env) (r : http.Request) :
  fst (ServiceB.response env r) = 200%Z <->
  exists viaCEP tempC, bothSucceed env r viaCEP tempC.
Proof.
  split.
  - intro H.
    destruct (String.eqb (http.Method r) http.MethodPost) eqn:Hm.
    2: { apply String.eqb_neq in Hm.
         rewrite (handleWeather_not_post env r Hm) in H. discriminate H. }
    apply String.eqb_eq in Hm.
    destruct (accepted_dec r) as [[req Ha]|Hrej].
    2: { apply (invalidZipcode_not_accepted r Hm) in Hrej.
         apply (handleWeather_invalid_iff env r Hm) in Hrej.
         rewrite Hrej in H. discriminate H. }
    rewrite (handleWeather_accepted_text env r req Ha) in H.
    destruct (lookupResult env (CEP req)) as [[v|] [e|]] eqn:Hl;
      try discriminate H.
    destruct (weatherResult env (ServiceB.Localidade v)) as [t [e|]] eqn:Hw;
      try discriminate H.
    exists v, t, req. auto.
  - intros (v & t & req & Ha & Hl & Hw).
    now rewrite (handleWeather_accepted_text env r req Ha), Hl, Hw.
Qed.

Lemma weatherBody_finite (env : Env) (city : string) (tempC : float) :
  jsonrt.isFinite tempC && jsonrt.isFinite (celsiusToFahrenheit tempC)
    && jsonrt.isFinite (celsiusToKelvin tempC) = true ->
  weatherBody env city tempC = weatherJSON env city tempC ++ newline.
Proof.
  intro Hfin. unfold weatherBody, ServiceB.Marshal_WeatherResponse.
  cbn [TempC TempF TempK City]. rewrite Hfin. reflexivity.
Qed.

(** X4. When both calls succeed and the three temperatures are finite, the
    answer is 200 with the object [city, temp_C, temp_F, temp_K] and a
    newline: the city is the locality of the lookup, temp_F and temp_K
    are the conversions of temp_C. *)
Theorem handleWeather_success
  (env : Env) (r : http.Request) (viaCEP : ServiceB.ViaCEPResponse) (tempC : float) :
  bothSucceed env r viaCEP tempC ->
  jsonrt.isFinite tempC && jsonrt.isFinite (celsiusToFahrenheit tempC)
    && jsonrt.isFinite (celsiusToKelvin tempC) = true ->
  ServiceB.response env r
    = (200%Z, weatherJSON env (ServiceB.Localidade viaCEP) tempC ++ newline).
Proof.
  intros (req & Ha & Hl & Hw) Hfin.
  rewrite (handleWeather_accepted_text env r req Ha), Hl, Hw.
  now rewrite weatherBody_finite.
Qed.

Lemma handleWeather_success_witness :
  ServiceB.response (Scenario.world "key" Scenario.found Scenario.sunny)
                    (Scenario.post "/weather" "50030230")
  = (200%Z,
     weatherJSON (Scenario.world "key" Scenario.found Scenario.sunny) "Recife" 25
       ++ newline).
Proof.
  apply (handleWeather_success _ _
           (ServiceB.mkViaCEP EmptyString EmptyString EmptyString EmptyString
                              "Recife" EmptyString EmptyString) 25%float).
  - exists (mkCEPRequest "50030230").
    repeat split; vm_compute; reflexivity.
  - vm_compute. reflexivity.
Defined.

(** X5. When both calls succeed but a conversion is not finite (the
    Fahrenheit value of a large temperature overflows), the encoder
    refuses the value after the header is written: the answer is 200 with
    an empty body. *)
Theorem handleWeather_overflow
  (env : Env) (r : http.Request) (viaCEP : ServiceB.ViaCEPResponse) (tempC : float) :
  bothSucceed env r viaCEP tempC ->
  jsonrt.isFinite tempC && jsonrt.isFinite (celsiusToFahrenheit tempC)
    && jsonrt.isFinite (celsiusToKelvin tempC) = false ->
  ServiceB.response env r = (200%Z, EmptyString).
Proof.
  intros (req & Ha & Hl & Hw) Hfin.
  rewrite (handleWeather_accepted_text env r req Ha), Hl, Hw.
  unfold weatherBody, ServiceB.Marshal_WeatherResponse.
  cbn [TempC TempF TempK City]. rewrite Hfin. reflexivity.
Qed.

Lemma handleWeather_overflow_witness :
  ServiceB.response scorching (Scenario.post "/weather" "50030230")
  = (200%Z, EmptyString).
Proof.
  apply (handleWeather_overflow _ _
           (ServiceB.mkViaCEP EmptyString EmptyString EmptyString EmptyString
                              "Recife" EmptyString EmptyString)
           (fst (weatherResult scorching "Recife"))).
  - exists (mkCEPRequest "50030230").
    repeat split; vm_compute; reflexivity.
  - vm_compute. reflexivity.
Defined.

(** ** What the Orchestration handler sends out *)

Lemma lookupTrace_roundTrips (env : Env) (cep : string) :
  roundTrips (lookupTrace env cep) =
    if urlParses env (http.URL (viaCEPRequest cep)) then [viaCEPRequest cep] else [].
Proof.
  unfold lookupTrace, ServiceB.lookupCEP, NewRequestWithContext, viaCEPRequest.
  repeat (run; break_match); reflexivity.
Qed.

Lemma weatherTrace_roundTrips (env : Env) (city : string) :
  roundTrips (weatherTrace env city) =
    if String.eqb (Getenv env "WEATHER_API_KEY") EmptyString then []
    else if urlParses env (http.URL (weatherRequest env city))
         then [weatherRequest env city] else [].
Proof.
  unfold weatherTrace, ServiceB.getWeather, NewRequestWithContext,
    weatherRequest, weatherURL.
  run. destruct (Getenv env _) as [|k0 key]; run; [reflexivity|].
  repeat (run; break_match); reflexivity.
Qed.

Lemma handleWeather_roundTrips (env : Env) (r : http.Request) (req : CEPRequest) :
  accepted r req ->
  roundTrips (trace (ServiceB.serve env r)) =
    (roundTrips (lookupTrace env (CEP req))
     ++ match lookupResult env (CEP req) with
        | (Some viaCEP, None) =>
            roundTrips (weatherTrace env (ServiceB.Localidade viaCEP))
        | _ => []
        end)%list.
Proof.
  intros (Hm & Hd & Hv).
  unfold ServiceB.serve, ServiceB.handleWeather.
  rewrite Hm, Hd, Hv. run. rewrite lookupCEP_run.
  destruct (lookupResult env (CEP req)) as [[v|] [e|]]; run;
    try (rewrite !roundTrips_app; cbn; now rewrite ?app_nil_r).
  rewrite getWeather_run.
  destruct (weatherResult env _) as [t [e|]]; run;
    try (rewrite !roundTrips_app; cbn; now rewrite ?app_nil_r).
  unfold ServiceB.Encode_WeatherResponse.
  destruct (ServiceB.Marshal_WeatherResponse _ _); run;
    rewrite !roundTrips_app; cbn; now rewrite ?app_nil_r.
Qed.

Lemma handleWeather_rejected_roundTrips (env : Env) (r : http.Request) :
  (forall req, ~ accepted r req) ->
  roundTrips (trace (ServiceB.serve env r)) = [].
Proof.
  intro Hrej. unfold ServiceB.serve, ServiceB.handleWeather. run.
  destruct (String.eqb (http.Method r) http.MethodPost) eqn:Hm; run;
    [|reflexivity].
  destruct (jsonrt.Decode _ _ _) as [req [e|]] eqn:Hd; run; [reflexivity|].
  destruct (ServiceB.validateCEP (CEP req)) eqn:Hv; run; [|reflexivity].
  exfalso. apply (Hrej req). apply String.eqb_eq in Hm. now repeat split.
Qed.

Lemma handleWeather_roundTrips_cases (env : Env) (r : http.Request) :
  roundTrips (trace (ServiceB.serve env r)) = [] \/
  exists req,
    accepted r req /\
    (roundTrips (trace (ServiceB.serve env r)) = [viaCEPRequest (CEP req)] \/
     exists viaCEP,
       lookupResult env (CEP req) = (Some viaCEP, None) /\
       roundTrips (trace (ServiceB.serve env r))
         = [viaCEPRequest (CEP req);
            weatherRequest env (ServiceB.Localidade viaCEP)]).
Proof.
  destruct (accepted_dec r) as [[req Ha]|Hrej].
  2: { left. now apply handleWeather_rejected_roundTrips. }
  rewrite (handleWeather_roundTrips env r req Ha), lookupTrace_roundTrips.
  pose proof (lookupResult_cases env (CEP req)) as Hc.
  destruct (urlParses env (http.URL (viaCEPRequest (CEP req)))).
  2: { left. rewrite Hc. reflexivity. }
  clear Hc.
  destruct (lookupResult env (CEP req)) as [[v|] [e|]] eqn:Hl;
    try (right; exists req; split; [exact Ha|left; reflexivity]).
  rewrite weatherTrace_roundTrips.
  right. exists req. split; [exact Ha|].
  destruct (String.eqb _ _); [left; reflexivity|].
  destruct (urlParses env _); [|left; reflexivity].
  right. exists v. split; [exact Hl|reflexivity].
Qed.

(** X6. A run of the Orchestration handler sends at most one request to
    each collaborator and never repeats one: it sends nothing; or the
    lookup request alone; or the lookup request and then the weather
    request for the city the lookup found. *)
Theorem handleWeather_sends (env : Env) (r : http.Request) :
  roundTrips (trace (ServiceB.serve env r)) = [] \/
  exists req,
    accepted r req /\
    (roundTrips (trace (ServiceB.serve env r)) = [viaCEPRequest (CEP req)] \/
     exists viaCEP,
       lookupResult env (CEP req) = (Some viaCEP, None) /\
       roundTrips (trace (ServiceB.serve env r))
         = [viaCEPRequest (CEP req);
            weatherRequest env (ServiceB.Localidade viaCEP)]).
Proof. apply handleWeather_roundTrips_cases. Qed.

(** X7. Without the credential WEATHER_API_KEY the weather provider is
    never contacted: [getWeather] fails before it builds a request, so
    the lookup request is the only one sent. *)
Theorem no_credential_no_weather_request
  (env : Env) (r : http.Request) (req : CEPRequest) :
  accepted r req ->
  urlParses env (http.URL (viaCEPRequest (CEP req))) = true ->
  Getenv env "WEATHER_API_KEY" = EmptyString ->
  roundTrips (trace (ServiceB.serve env r)) = [viaCEPRequest (CEP req)].
Proof.
  intros Ha Hu Hk.
  rewrite (handleWeather_roundTrips env r req Ha), lookupTrace_roundTrips, Hu.
  destruct (lookupResult env (CEP req)) as [[v|] [e|]]; try reflexivity.
  now rewrite weatherTrace_roundTrips, Hk.
Qed.

Lemma no_credential_no_weather_request_witness :
  roundTrips
    (trace (ServiceB.serve (Scenario.world EmptyString Scenario.found Scenario.sunny)
                           (Scenario.post "/weather" "50030230")))
  = [viaCEPRequest "50030230"].
Proof.
  apply (no_credential_no_weather_request _ _ (mkCEPRequest "50030230")).
  - repeat split; vm_compute; reflexivity.
  - reflexivity.
  - reflexivity.
Defined.

(** ** Spans and headers *)

Lemma wb_lookupTrace (env : Env) (cep : string) (open : list string) (rest : list Event) :
  wellBracketed open (lookupTrace env cep ++ rest) = wellBracketed open rest.
Proof.
  unfold lookupTrace, ServiceB.lookupCEP, NewRequestWithContext.
  repeat (run; break_match); cbn; rewrite ?String.eqb_refl; reflexivity.
Qed.

Lemma wb_weatherTrace (env : Env) (city : string) (open : list string) (rest : list Event) :
  wellBracketed open (weatherTrace env city ++ rest) = wellBracketed open rest.
Proof.
  unfold weatherTrace, ServiceB.getWeather, NewRequestWithContext.
  repeat (run; break_match); cbn; rewrite ?String.eqb_refl; reflexivity.
Qed.

Lemma spans_B (env : Env) (r : http.Request) :
  wellBracketed [] (trace (ServiceB.serve env r)) = true.
Proof.
  unfold ServiceB.serve, ServiceB.handleWeather. run.
  destruct (String.eqb (http.Method r) http.MethodPost); run; [|reflexivity].
  destruct (jsonrt.Decode _ _ _) as [req [e|]]; run; [reflexivity|].
  destruct (ServiceB.validateCEP (CEP req)); run; [|reflexivity].
  rewrite lookupCEP_run.
  destruct (lookupResult env (CEP req)) as [[v|] [e|]]; run;
    try (rewrite <- !app_assoc; cbn; rewrite wb_lookupTrace; reflexivity).
  rewrite getWeather_run.
  destruct (weatherResult env _) as [t [e|]]; run;
    try (rewrite <- !app_assoc; cbn; rewrite wb_lookupTrace, wb_weatherTrace;
         reflexivity).
  unfold ServiceB.Encode_WeatherResponse.
  destruct (ServiceB.Marshal_WeatherResponse _ _); run;
    rewrite <- !app_assoc; cbn; rewrite wb_lookupTrace, wb_weatherTrace;
    reflexivity.
Qed.

Lemma json_B (env : Env) (r : http.Request) :
  http.Method r = http.MethodPost ->
  http.header (w (ServiceB.serve env r)) = [("Content-Type", "application/json")] /\
  http.status (w (ServiceB.serve env r)) <> None.
Proof.
  intro Hm. unfold ServiceB.serve, ServiceB.handleWeather. rewrite Hm. run.
  destruct (jsonrt.Decode _ _ _) as [req [e|]]; run; [split; [reflexivity|discriminate]|].
  destruct (ServiceB.validateCEP (CEP req)); run; [|split; [reflexivity|discriminate]].
  rewrite lookupCEP_run.
  destruct (lookupResult env (CEP req)) as [[v|] [e|]]; run;
    try (split; [reflexivity|discriminate]).
  rewrite getWeather_run.
  destruct (weatherResult env _) as [t [e|]]; run;
    try (split; [reflexivity|discriminate]).
  unfold ServiceB.Encode_WeatherResponse.
  destruct (ServiceB.Marshal_WeatherResponse _ _); run;
    split; (reflexivity || discriminate).
Qed.

Lemma spans_A (env : Env) (r : http.Request) :
  wellBracketed [] (trace (ServiceA.serve env r)) = true.
Proof.
  unfold ServiceA.serve, ServiceA.handleCEP, NewRequestWithContext. run.
  destruct (String.eqb (http.Method r) http.MethodPost); run; [|reflexivity].
  destruct (jsonrt.Decode _ _ _) as [req [e|]]; run; [reflexivity|].
  destruct (ServiceA.validateCEP (CEP req)); run; [|reflexivity].
  destruct (urlParses env _); run; [|reflexivity].
  destruct (Do env _) as [resp|err]; run; reflexivity.
Qed.

Lemma json_A (env : Env) (r : http.Request) :
  http.Method r = http.MethodPost ->
  http.header (w (ServiceA.serve env r)) = [("Content-Type", "application/json")] /\
  http.status (w (ServiceA.serve env r)) <> None.
Proof.
  intro Hm.
  unfold ServiceA.serve, ServiceA.handleCEP, NewRequestWithContext. rewrite Hm. run.
  destruct (jsonrt.Decode _ _ _) as [req [e|]]; run; [split; [reflexivity|discriminate]|].
  destruct (ServiceA.validateCEP (CEP req)); run; [|split; [reflexivity|discriminate]].
  destruct (urlParses env _); run; [|split; [reflexivity|discriminate]].
  destruct (Do env _) as [resp|err]; run; split; (reflexivity || discriminate).
Qed.

(** X8. Every run of either handler keeps the span discipline: each span
    it starts it ends, innermost first, it sets attributes only on spans
    that are open, and it sends requests only inside a span. *)
Theorem spans_well_bracketed (env : Env) (r : http.Request) :
  wellBracketed [] (trace (ServiceA.serve env r)) = true /\
  wellBracketed [] (trace (ServiceB.serve env r)) = true.
Proof. split; [apply spans_A|apply spans_B]. Qed.

(** X9. To a POST request both handlers answer with an explicit status
    and with the one header [Content-Type: application/json], on every
    path, whatever the environment. *)
Theorem post_answers_are_json (env : Env) (r : http.Request) :
  http.Method r = http.MethodPost ->
  (http.header (w (ServiceA.serve env r)) = [("Content-Type", "application/json")] /\
   http.status (w (ServiceA.serve env r)) <> None) /\
  (http.header (w (ServiceB.serve env r)) = [("Content-Type", "application/json")] /\
   http.status (w (ServiceB.serve env r)) <> None).
Proof. intro Hm. split; [now apply json_A|now apply json_B]. Qed.

Lemma post_answers_are_json_witness :
  (http.header (w (ServiceA.serve (Scenario.world "key" Scenario.found Scenario.down)
                                  (Scenario.post "/cep" "01310100")))
     = [("Content-Type", "application/json")] /\
   http.status (w (ServiceA.serve (Scenario.world "key" Scenario.found Scenario.down)
                                  (Scenario.post "/cep" "01310100"))) <> None) /\
  (http.header (w (ServiceB.serve (Scenario.world "key" Scenario.found Scenario.down)
                                  (Scenario.post "/cep" "01310100")))
     = [("Content-Type", "application/json")] /\
   http.status (w (ServiceB.serve (Scenario.world "key" Scenario.found Scenario.down)
                                  (Scenario.post "/cep" "01310100"))) <> None).
Proof. apply post_answers_are_json. reflexivity. Defined.

(** ** The answers of the Edge handler and what it sends out *)

Lemma handleCEP_roundTrips (env : Env) (r : http.Request) (req : CEPRequest) :
  acceptedByEdge r req ->
  roundTrips (trace (ServiceA.serve env r)) =
    if urlParses env (http.URL (forwardRequest env req))
    then [forwardRequest env req] else [].
Proof.
  intros (Hm & Hd & Hv).
  unfold ServiceA.serve, ServiceA.handleCEP, NewRequestWithContext,
    forwardRequest, serviceBURL.
  rewrite Hm, Hd, Hv. run.
  destruct (urlParses env _); run; [|reflexivity].
  destruct (Do env _) as [resp|err]; run; reflexivity.
Qed.

Lemma handleCEP_rejected_roundTrips (env : Env) (r : http.Request) :
  (forall req, ~ acceptedByEdge r req) ->
  roundTrips (trace (ServiceA.serve env r)) = [].
Proof.
  intro Hrej. unfold ServiceA.serve, ServiceA.handleCEP. run.
  destruct (String.eqb (http.Method r) http.MethodPost) eqn:Hm; run;
    [|reflexivity].
  destruct (jsonrt.Decode _ _ _) as [req [e|]] eqn:Hd; run; [reflexivity|].
  destruct (ServiceA.validateCEP (CEP req)) eqn:Hv; run; [|reflexivity].
  exfalso. apply (Hrej req). apply String.eqb_eq in Hm. now repeat split.
Qed.

(** X10. The Edge handler has five answers and no other: 405 with no
    body; 422 "invalid zipcode"; and, for a request it accepts, 500
    "internal error" when the outbound request cannot be built, 503
    "service unavailable" when the call fails, or else the status and
    body of the response it got. *)
Theorem handleCEP_answers (env : Env) (r : http.Request) :
  ServiceA.response env r = (405%Z, EmptyString) \/
  ServiceA.response env r = invalidAnswer \/
  exists req,
    acceptedByEdge r req /\
    ((urlParses env (http.URL (forwardRequest env req)) = false /\
      ServiceA.response env r = (500%Z, messageJSON "internal error" ++ newline)) \/
     (urlParses env (http.URL (forwardRequest env req)) = true /\
      ((exists err,
           Do env (forwardRequest env req) = inr err /\
           ServiceA.response env r
             = (503%Z, messageJSON "service unavailable" ++ newline)) \/
       (exists resp,
           Do env (forwardRequest env req) = inl resp /\
           ServiceA.response env r
             = (http.StatusCode resp, fst (http.RespBody resp)))))).
Proof.
  destruct (String.eqb (http.Method r) http.MethodPost) eqn:Hm.
  2: { left. apply String.eqb_neq in Hm. unfold ServiceA.response.
       now rewrite (handleCEP_not_post_state env r Hm). }
  apply String.eqb_eq in Hm.
  destruct (accepted_dec r) as [[req Ha]|Hrej].
  2: { right; left. apply (handleCEP_invalid env r Hm).
       now apply (invalidZipcode_not_accepted r Hm). }
  do 2 right. exists req. split; [exact Ha|].
  destruct (handleCEP_accepted env r req Ha) as (-> & _).
  destruct (urlParses env _).
  - right. split; [reflexivity|].
    destruct (Do env _) as [resp|err]; [right; eauto|left].
    exists err. split; [reflexivity|]. now rewrite errorBody_text by reflexivity.
  - left. split; [reflexivity|]. now rewrite errorBody_text by reflexivity.
Qed.

(** X11. When the outbound request cannot be built (the URL made of
    SERVICE_B_URL does not parse), the Edge handler answers 500 "internal
    error" and sends nothing. *)
Theorem edge_request_construction_failure
  (env : Env) (r : http.Request) (req : CEPRequest) :
  acceptedByEdge r req ->
  urlParses env (http.URL (forwardRequest env req)) = false ->
  ServiceA.response env r = (500%Z, messageJSON "internal error" ++ newline) /\
  roundTrips (trace (ServiceA.serve env r)) = [].
Proof.
  intros Ha Hu. rewrite (handleCEP_roundTrips env r req Ha), Hu.
  destruct (handleCEP_accepted env r req Ha) as (-> & _). rewrite Hu.
  now rewrite errorBody_text by reflexivity.
Qed.

Lemma edge_request_construction_failure_witness :
  let env := mkEnv (fun _ => "http://service b") (fun _ => false)
                   (fun _ => Scenario.down) [] (fun _ => None)
                   (fun _ => EmptyString) in
  ServiceA.response env (Scenario.post "/cep" "01310100")
    = (500%Z, messageJSON "internal error" ++ newline) /\
  roundTrips (trace (ServiceA.serve env (Scenario.post "/cep" "01310100"))) = [].
Proof.
  cbv zeta.
  apply (edge_request_construction_failure _ _ (mkCEPRequest "01310100")).
  - repeat split; vm_compute; reflexivity.
  - reflexivity.
Defined.

(** X12. The Edge handler sends at most one request, and none for a
    request it rejects: validation comes before any contact with the
    Orchestration service.  What it sends is a POST to
    [$SERVICE_B_URL/weather] ([http://service-b:8081/weather] when the
    variable is empty) with [Content-Type: application/json] and every
    header of the trace context. *)
Theorem handleCEP_sends (env : Env) (r : http.Request) :
  ((forall req, ~ acceptedByEdge r req) ->
   roundTrips (trace (ServiceA.serve env r)) = []) /\
  (roundTrips (trace (ServiceA.serve env r)) = [] \/
   exists q,
     roundTrips (trace (ServiceA.serve env r)) = [q] /\
     http.Method q = "POST" /\
     http.URL q =
       (if String.eqb (Getenv env "SERVICE_B_URL") EmptyString
        then "http://service-b:8081" else Getenv env "SERVICE_B_URL")
       ++ "/weather" /\
     In ("Content-Type", "application/json") (http.ReqHeader q) /\
     (forall h, In h (Inject env) -> In h (http.ReqHeader q))).
Proof.
  split; [apply handleCEP_rejected_roundTrips|].
  destruct (accepted_dec r) as [[req Ha]|Hrej].
  2: { left. now apply handleCEP_rejected_roundTrips. }
  rewrite (handleCEP_roundTrips env r req Ha).
  destruct (urlParses env _); [|left; reflexivity].
  right. exists (forwardRequest env req).
  split; [reflexivity|]. split; [reflexivity|]. split; [reflexivity|].
  split; [left; reflexivity|]. intros h Hh. right. exact Hh.
Qed.

(** ** The two handlers composed *)

(** The answer of the Orchestration handler depends on an accepted request
    through its postal code alone. *)
Lemma handleWeather_by_cep (env : Env) (r r' : http.Request) (req : CEPRequest) :
  accepted r req -> accepted r' req ->
  ServiceB.response env r = ServiceB.response env r'.
Proof.
  intros Ha Ha'.
  now rewrite (handleWeather_accepted env r req Ha),
              (handleWeather_accepted env r' req Ha').
Qed.

(** X13. The Edge handler is transparent: when its requests reach the
    Orchestration handler and the outbound request can be built, a caller
    gets from the Edge handler, for every request (any method, any body),
    the status and body the Orchestration handler would give to that same
    request. *)
Theorem edge_is_transparent (edge orch : Env) (r : http.Request) :
  forwardsTo edge orch ->
  (forall req, urlParses edge (http.URL (forwardRequest edge req)) = true) ->
  ServiceA.response edge r = ServiceB.response orch r.
Proof.
  intros Hfw Hu.
  destruct (String.eqb (http.Method r) http.MethodPost) eqn:Hm.
  2: { apply String.eqb_neq in Hm. unfold ServiceA.response, ServiceB.response.
       now rewrite (handleCEP_not_post_state edge r Hm),
                   (handleWeather_not_post_state orch r Hm). }
  apply String.eqb_eq in Hm.
  destruct (accepted_dec r) as [[req Ha]|Hrej].
  2: { apply (invalidZipcode_not_accepted r Hm) in Hrej.
       rewrite (handleCEP_invalid edge r Hm Hrej).
       symmetry. now apply (handleWeather_invalid_iff orch r Hm). }
  pose proof Ha as (_ & _ & Hv).
  destruct (handleCEP_accepted edge r req Ha) as (-> & _).
  rewrite (Hu req), (Hfw (forwardRequest edge req)).
  unfold answeredBy. cbn [http.StatusCode http.RespBody fst].
  rewrite <- surjective_pairing.
  apply (handleWeather_by_cep orch _ _ req); [|exact Ha].
  repeat split; [|exact Hv]. exact (Decode_Marshal req Hv).
Qed.

Lemma edge_is_transparent_witness :
  let orch := Scenario.world "key" Scenario.notFound Scenario.sunny in
  let edge := mkEnv (fun _ => EmptyString) (fun _ => true)
                    (fun q => inl (answeredBy orch q))
                    [] (fun _ => None) (fun _ => EmptyString) in
  ServiceA.response edge (Scenario.post "/cep" "00000000")
  = ServiceB.response orch (Scenario.post "/cep" "00000000").
Proof.
  cbv zeta. apply edge_is_transparent.
  - intro q. reflexivity.
  - intro req. reflexivity.
Defined.

(** ** The lookup and the status code *)

(** X14. [lookupCEP] never looks at the status code of the answer: two
    environments whose answers to the lookup differ in the status code
    only give the same result, so a body that parses and names a locality
    is a found city whatever the status. *)
Theorem lookupCEP_ignores_status
  (env env' : Env) (cep : string) (resp resp' : http.Response) :
  urlParses env (http.URL (viaCEPRequest cep))
    = urlParses env' (http.URL (viaCEPRequest cep)) ->
  Do env (viaCEPRequest cep) = inl resp ->
  Do env' (viaCEPRequest cep) = inl resp' ->
  http.RespBody resp = http.RespBody resp' ->
  lookupResult env cep = lookupResult env' cep.
Proof.
  intros Hu Hd Hd' Hb.
  now rewrite !lookupResult_cases, Hu, Hd, Hd', Hb.
Qed.

Lemma lookupCEP_ignores_status_witness :
  lookupResult (Scenario.world "key" Scenario.found Scenario.sunny) "50030230"
  = lookupResult
      (Scenario.world "key"
         (Scenario.answer 503 (Scenario.object1 "localidade" "Recife"))
         Scenario.sunny) "50030230".
Proof.
  apply (lookupCEP_ignores_status _ _ _
           (http.mkResponse 200 (Scenario.object1 "localidade" "Recife", None))
           (http.mkResponse 503 (Scenario.object1 "localidade" "Recife", None)));
    reflexivity.
Defined.

(** ** The city in the weather URL *)

Lemma allb_app (p : ascii -> bool) (a b : string) :
  allb p (a ++ b) = allb p a && allb p b.
Proof.
  induction a as [|x a IH]; cbn; [reflexivity|].
  now rewrite IH, andb_assoc.
Qed.

(** X15. Whatever the city, its escaped form holds only letters, digits
    and the bytes [- _ . ~ + %]: no space, [&], [=], [#] or [/] of a
    locality reaches the query string of the weather request, so the city
    cannot add or end a parameter. *)
Theorem QueryEscape_bytes (s : string) :
  allb queryByte (url.QueryEscape s) = true.
Proof.
  induction s as [|c s IH]; [reflexivity|].
  cbn [url.QueryEscape]. rewrite allb_app, IH, andb_true_r.
  destruct c as [[] [] [] [] [] [] [] []]; reflexivity.
Qed.

Lemma unescapeQuery_QueryEscape (s : string) :
  unescapeQuery (url.QueryEscape s) = s.
Proof.
  induction s as [|c s IH]; [reflexivity|].
  cbn [url.QueryEscape].
  destruct c as [[] [] [] [] [] [] [] []]; cbn; now rewrite IH.
Qed.

Lemma append_inj_l (a x y : string) : a ++ x = a ++ y -> x = y.
Proof.
  induction a as [|c a IH]; cbn; [trivial|]. intros [= H]. now apply IH.
Qed.

Lemma append_length (a b : string) :
  String.length (a ++ b) = String.length a + String.length b.
Proof. induction a as [|c a IH]; cbn; [reflexivity|now rewrite IH]. Qed.

Lemma append_inj_r (x y b : string) : x ++ b = y ++ b -> x = y.
Proof.
  revert y. induction x as [|c x IH]; intros [|d y] H; cbn in H.
  - reflexivity.
  - apply (f_equal String.length) in H. cbn in H. rewrite append_length in H. lia.
  - apply (f_equal String.length) in H. cbn in H. rewrite append_length in H. lia.
  - injection H as -> H. now rewrite (IH y H).
Qed.

(** X16. [url.QueryEscape] loses nothing, so with one credential two
    different cities never give the same weather URL. *)
Theorem weatherURL_injective (apiKey city1 city2 : string) :
  city1 <> city2 -> weatherURL apiKey city1 <> weatherURL apiKey city2.
Proof.
  unfold weatherURL. intros Hne H. apply Hne.
  apply append_inj_l, append_inj_l, append_inj_l, append_inj_r in H.
  now rewrite <- (unescapeQuery_QueryEscape city1), H, unescapeQuery_QueryEscape.
Qed.

Lemma weatherURL_injective_witness :
  weatherURL "key" "Sao Paulo" <> weatherURL "key" "Sao+Paulo".
Proof.
  apply (weatherURL_injective "key"). discriminate.
Defined.

(** ** Encoding a string and decoding it again *)

Lemma width_2_prefix (c c2 : ascii) (s2 X : string) :
  utf8.width c (String c2 s2) = 2 -> utf8.width c (String c2 X) = 2.
Proof.
  unfold utf8.width. intro H. break_in H; try discriminate H; reflexivity.
Qed.

Lemma width_3_prefix (c c2 c3 : ascii) (s3 X : string) :
  utf8.width c (String c2 (String c3 s3)) = 3 ->
  utf8.width c (String c2 (String c3 X)) = 3.
Proof.
  unfold utf8.width. intro H. break_in H; try discriminate H; reflexivity.
Qed.

Lemma width_4_prefix (c c2 c3 c4 : ascii) (s4 X : string) :
  utf8.width c (String c2 (String c3 (String c4 s4))) = 4 ->
  utf8.width c (String c2 (String c3 (String c4 X))) = 4.
Proof.
  unfold utf8.width. intro H. break_in H; try discriminate H; reflexivity.
Qed.

Lemma high_byte (c : ascii) :
  (N_of_ascii c <? 128)%N = false ->
  Ascii.eqb c dquote = false /\ (N_of_ascii c <? 32)%N = false /\
  Ascii.eqb c "\" = false.
Proof.
  destruct c as [[] [] [] [] [] [] [] []]; intro H;
    solve [discriminate H | repeat split; reflexivity].
Qed.

(** One ASCII byte, encoded and scanned. *)
Lemma scanString_ascii_piece (c : ascii) (t : string) :
  (N_of_ascii c <? 128)%N = true ->
  json.scanString
    ((if jsonrt.htmlSafe c then String c EmptyString else jsonrt.escapeByte c) ++ t)
  = json.emit (String c EmptyString) (json.scanString t).
Proof.
  destruct c as [[] [] [] [] [] [] [] []]; intro H;
    solve [discriminate H | reflexivity].
Qed.

Lemma scanString_fffd (t : string) :
  json.scanString ("\ufffd" ++ t) = json.emit utf8.replacement (json.scanString t).
Proof. reflexivity. Qed.

Lemma scanString_2028 (t : string) :
  json.scanString ("\u2028" ++ t)
  = json.emit (String "226" (String "128" (String "168" EmptyString)))
              (json.scanString t).
Proof. reflexivity. Qed.

Lemma scanString_2029 (t : string) :
  json.scanString ("\u2029" ++ t)
  = json.emit (String "226" (String "128" (String "169" EmptyString)))
              (json.scanString t).
Proof. reflexivity. Qed.

Lemma width_empty (c : ascii) :
  (N_of_ascii c <? 128)%N = false -> utf8.width c EmptyString = 0.
Proof. intro H. unfold utf8.width. now rewrite H. Qed.

(** The contents of an encoded string, scanned: the string comes back,
    its ill-formed bytes replaced. *)
Lemma scanString_escapeString (n : nat) (s rest : string) :
  String.length s <= n ->
  json.scanString (jsonrt.escapeString s ++ String dquote rest)
  = Some (toValidUTF8 s, rest).
Proof.
  revert s. induction n as [|n IH]; intros s Hn.
  - destruct s; [reflexivity|cbn in Hn; lia].
  - destruct s as [|c s1]; [reflexivity|]. cbn [String.length] in Hn.
    cbn [jsonrt.escapeString toValidUTF8].
    destruct (N_of_ascii c <? 128)%N eqn:Hc.
    + rewrite append_assoc, (scanString_ascii_piece c _ Hc), IH by lia.
      reflexivity.
    + destruct (high_byte c Hc) as (H1 & H2 & H3).
      assert (Hbad : json.scanString
                       (("\ufffd" ++ jsonrt.escapeString s1) ++ String dquote rest)
                     = Some (utf8.replacement ++ toValidUTF8 s1, rest))
        by (rewrite append_assoc, scanString_fffd, IH by lia; reflexivity).
      destruct (utf8.width c s1) as [|[|[|[|[|w]]]]] eqn:Hw;
        try exact Hbad; clear Hbad.
      * destruct s1 as [|c2 s2]; [now rewrite width_empty in Hw|].
        cbn [String.length] in Hn.
        cbn [append json.scanString]. rewrite H1, H2, H3.
        rewrite (width_2_prefix _ _ _ _ Hw), IH by lia. reflexivity.
      * destruct s1 as [|c2 [|c3 s3]];
          [now rewrite width_empty in Hw
          |unfold utf8.width in Hw; rewrite Hc in Hw; break_in Hw; discriminate Hw|].
        cbn [String.length] in Hn.
        destruct (Ascii.eqb c "226" && Ascii.eqb c2 "128"
                  && (Ascii.eqb c3 "168" || Ascii.eqb c3 "169")) eqn:Hls.
        -- apply andb_true_iff in Hls as [Hls E3].
           apply andb_true_iff in Hls as [E1 E2].
           apply Ascii.eqb_eq in E1, E2. subst c c2.
           apply orb_true_iff in E3 as [E3|E3]; apply Ascii.eqb_eq in E3; subst c3.
           ++ change ("\u202" ++ String (jsonrt.hexDigit (N_of_ascii "168" mod 16)) EmptyString)
                with "\u2028".
              rewrite !append_assoc, scanString_2028, IH by lia. reflexivity.
           ++ change ("\u202" ++ String (jsonrt.hexDigit (N_of_ascii "169" mod 16)) EmptyString)
                with "\u2029".
              rewrite !append_assoc, scanString_2029, IH by lia. reflexivity.
        -- cbn [append json.scanString]. rewrite H1, H2, H3.
           rewrite (width_3_prefix _ _ _ _ _ Hw), IH by lia. reflexivity.
      * destruct s1 as [|c2 [|c3 [|c4 s4]]];
          try (now rewrite width_empty in Hw);
          try (unfold utf8.width in Hw; rewrite Hc in Hw; break_in Hw;
               discriminate Hw).
        cbn [String.length] in Hn.
        cbn [append json.scanString]. rewrite H1, H2, H3.
        rewrite (width_4_prefix _ _ _ _ _ _ Hw), IH by lia. reflexivity.
Qed.

Lemma toValidUTF8_ascii (s : string) :
  allb isASCII s = true -> toValidUTF8 s = s.
Proof.
  induction s as [|c s IH]; [reflexivity|].
  cbn [allb toValidUTF8]. unfold isASCII at 1.
  intros [Hc Hs]%andb_true_iff. now rewrite Hc, (IH Hs).
Qed.

Lemma parseValue_scanned (fuel : nat) (depth : N) (body d rest : string) :
  json.scanString body = Some (d, rest) ->
  json.parseValue (S fuel) depth (String dquote body) = Some (json.Str d, rest).
Proof.
  intro H. cbn [json.parseValue json.skipSpace]. known_bytes.
  now rewrite H.
Qed.

Lemma scanString_cep (rest : string) :
  json.scanString (String "c" (String "e" (String "p" (String dquote rest))))
  = Some ("cep", rest).
Proof. exact (scanString_plain "cep" rest eq_refl). Qed.

Lemma parseValue_cep_object (fuel : nat) (body d : string) :
  json.scanString body = Some (d, "}") ->
  json.parseValue (S (S (S fuel))) 0
    ("{" ++ String dquote ("cep" ++ String dquote (":" ++ String dquote body)))
  = Some (json.Object [("cep", json.Str d)], EmptyString).
Proof.
  intro H.
  cbn [json.parseValue json.skipSpace append]. known_bytes.
  cbn [json.parseMembers json.skipSpace]. known_bytes.
  rewrite scanString_cep.
  cbn [json.skipSpace]. known_bytes.
  rewrite (parseValue_scanned fuel _ body d _ H).
  cbn [json.skipSpace]. known_bytes.
  reflexivity.
Qed.

(** X17. Marshalling a [CEPRequest] and decoding the text never fails, for
    every postal code and not only the valid ones: the string comes back
    with U+FFFD for each byte that does not start a well-formed UTF-8
    sequence ([toValidUTF8]) and otherwise unchanged, so an ASCII string
    comes back byte for byte. *)
Theorem Decode_Marshal_CEPRequest (req : CEPRequest) :
  jsonrt.Decode CEPRequest_fields (Marshal_CEPRequest req) (mkCEPRequest EmptyString)
    = (mkCEPRequest (toValidUTF8 (CEP req)), None) /\
  (allb isASCII (CEP req) = true ->
   jsonrt.Decode CEPRequest_fields (Marshal_CEPRequest req) (mkCEPRequest EmptyString)
     = (req, None)).
Proof.
  assert (H : jsonrt.Decode CEPRequest_fields (Marshal_CEPRequest req)
                            (mkCEPRequest EmptyString)
              = (mkCEPRequest (toValidUTF8 (CEP req)), None)).
  { unfold jsonrt.Decode, json.readValue.
    rewrite <- (parse_fuel_enough
                  (S (S (S (json.fuelFor (Marshal_CEPRequest req))))))
      by lia.
    replace (Marshal_CEPRequest req)
      with ("{" ++ String dquote ("cep" ++ String dquote (":" ++ String dquote
              (jsonrt.escapeString (CEP req) ++ String dquote "}")))) at 2.
    2: { unfold Marshal_CEPRequest, jsonrt.member, jsonrt.encodeString, jsonrt.q.
         cbn. now rewrite !append_assoc. }
    rewrite (parseValue_cep_object _ _ (toValidUTF8 (CEP req)));
      [reflexivity|].
    apply (scanString_escapeString (String.length (CEP req))). lia. }
  split; [exact H|].
  intro Ha. rewrite H, (toValidUTF8_ascii _ Ha). now destruct req.
Qed.

Example Decode_Marshal_utf8 :
  jsonrt.Decode CEPRequest_fields
    (Marshal_CEPRequest (mkCEPRequest (Scenario.saoPaulo ++ " <" ++ newline)))
    (mkCEPRequest EmptyString)
  = (mkCEPRequest (Scenario.saoPaulo ++ " <" ++ newline), None).
Proof. vm_compute. reflexivity. Qed.

(** ** The key of the request body *)

Lemma fold_plain (x a : ascii) :
  In x ["c"; "e"; "p"]%char ->
  Ascii.eqb (jsonrt.upper x) (jsonrt.upper a) = true -> plain a = true.
Proof.
  intros [<-|[<-|[<-|[]]]];
    destruct a as [[] [] [] [] [] [] [] []]; intro H;
    solve [discriminate H | reflexivity].
Qed.

Lemma equalFold_cep_plain (name : string) :
  jsonrt.equalFold "cep" name = true -> allb plain name = true.
Proof.
  destruct name as [|a [|b [|c [|d rest]]]]; cbn; try discriminate;
    rewrite ?andb_false_r; try discriminate.
  intros [Ha [Hb Hc]%andb_true_iff]%andb_true_iff.
  rewrite andb_true_r in Hc.
  rewrite (fold_plain "c" a), (fold_plain "e" b), (fold_plain "p" c);
    cbn; auto.
Qed.

(** X18. The key of the postal code is matched without regard to case: a
    body [{"<key>":"<cep>"}] whose key is [cep] in any mix of upper and
    lower case is accepted, with that postal code, by both handlers. *)
Theorem key_matches_up_to_case (path key cep : string) :
  jsonrt.equalFold "cep" key = true ->
  ServiceA.validateCEP cep = true ->
  accepted (http.mkRequest http.MethodPost path [] (Scenario.object1 key cep))
           (mkCEPRequest cep) /\
  acceptedByEdge (http.mkRequest http.MethodPost path [] (Scenario.object1 key cep))
                 (mkCEPRequest cep).
Proof.
  intros Hk Hv.
  assert (Hd : jsonrt.Decode CEPRequest_fields (Scenario.object1 key cep)
                             (mkCEPRequest EmptyString)
               = (mkCEPRequest cep, None)).
  { pose proof Hv as Hdig. rewrite validateCEP_eq in Hdig.
    apply andb_true_iff in Hdig as [_ Hdig].
    unfold jsonrt.Decode.
    rewrite (readValue_object1 key cep (equalFold_cep_plain key Hk)
               (allb_impl _ _ _ digit_plain Hdig)).
    unfold jsonrt.intoStruct, jsonrt.object, CEPRequest_fields.
    cbn [fold_left jsonrt.findField fst snd]. rewrite Hk. reflexivity. }
  split; (split; [reflexivity|split; [exact Hd|exact Hv]]).
Qed.

Lemma key_matches_up_to_case_witness :
  accepted (http.mkRequest http.MethodPost "/weather" []
              (Scenario.object1 "CeP" "01310100"))
           (mkCEPRequest "01310100") /\
  acceptedByEdge (http.mkRequest http.MethodPost "/weather" []
                    (Scenario.object1 "CeP" "01310100"))
                 (mkCEPRequest "01310100").
Proof. apply key_matches_up_to_case; reflexivity. Defined.

(** ** Where the Orchestration handler's requests go *)

(** X19. Every request the Orchestration handler sends is one of two: a
    GET of the ViaCEP URL whose path holds a postal code of exactly eight
    digits (so nothing of the caller's body but digits reaches the URL),
    or the GET of the weather URL for a city that is not empty. *)
Theorem handleWeather_destinations (env : Env) (r : http.Request) (q : http.Request) :
  In q (roundTrips (trace (ServiceB.serve env r))) ->
  (exists cep,
      String.length cep = 8 /\
      (forall c, In c (list_ascii_of_string cep) -> isDigit c = true) /\
      q = viaCEPRequest cep) \/
  (exists city, city <> EmptyString /\ q = weatherRequest env city).
Proof.
  intro Hq.
  destruct (handleWeather_roundTrips_cases env r)
    as [E|(req & Ha & [E|(v & Hl & E)])]; rewrite E in Hq.
  - contradiction.
  - destruct Hq as [<-|[]]. left. exists (CEP req).
    destruct Ha as (_ & _ & Hv). apply validateCEP_true_iff in Hv as [H1 H2].
    auto.
  - destruct Hq as [<-|[<-|[]]].
    + left. exists (CEP req).
      destruct Ha as (_ & _ & Hv). apply validateCEP_true_iff in Hv as [H1 H2].
      auto.
    + right. exists (ServiceB.Localidade v). split; [|reflexivity].
      now destruct (lookupResult_found env (CEP req) v Hl) as (_ & _ & H & _).
Qed.

Lemma handleWeather_destinations_witness :
  (exists cep,
      String.length cep = 8 /\
      (forall c, In c (list_ascii_of_string cep) -> isDigit c = true) /\
      weatherRequest (Scenario.world "key" Scenario.found Scenario.sunny) "Recife"
        = viaCEPRequest cep) \/
  (exists city,
      city <> EmptyString /\
      weatherRequest (Scenario.world "key" Scenario.found Scenario.sunny) "Recife"
        = weatherRequest (Scenario.world "key" Scenario.found Scenario.sunny) city).
Proof.
  apply (handleWeather_destinations
           (Scenario.world "key" Scenario.found Scenario.sunny)
           (Scenario.post "/weather" "50030230")).
  vm_compute. right. left. reflexivity.
Defined.

(** ** A weather answer without a temperature *)

Lemma object_no_field {T} (fields : list (jsonrt.Field T))
      (members : list (string * json.Value)) (t : T) :
  (forall k x, In (k, x) members -> jsonrt.findField fields k = None) ->
  jsonrt.object fields members t = (t, None).
Proof.
  unfold jsonrt.object. generalize (@None error).
  induction members as [|[k x] members IH]; intros e H; [reflexivity|].
  cbn [fold_left fst snd]. rewrite (H k x (or_introl eq_refl)).
  apply IH. intros k' x' Hin. apply (H k' x'). now right.
Qed.

(** X20. A 200 answer of the weather provider whose body is an object
    with no [current] member is not an error: the temperature keeps its
    zero value and the handler answers 200 with 0 degrees Celsius, 32
    Fahrenheit and 273 Kelvin. *)
Theorem missing_temperature_is_zero
  (env : Env) (r : http.Request) (req : CEPRequest)
  (viaCEP : ServiceB.ViaCEPResponse) (resp : http.Response)
  (body : string) (members : list (string * json.Value)) :
  accepted r req ->
  lookupResult env (CEP req) = (Some viaCEP, None) ->
  Getenv env "WEATHER_API_KEY" <> EmptyString ->
  urlParses env (http.URL (weatherRequest env (ServiceB.Localidade viaCEP))) = true ->
  Do env (weatherRequest env (ServiceB.Localidade viaCEP)) = inl resp ->
  http.StatusCode resp = 200%Z ->
  http.RespBody resp = (body, None) ->
  json.checkValid body = Some (json.Object members) ->
  (forall k x, In (k, x) members -> jsonrt.equalFold "current" k = false) ->
  weatherResult env (ServiceB.Localidade viaCEP) = (0%float, None) /\
  ServiceB.response env r
    = (200%Z, weatherJSON env (ServiceB.Localidade viaCEP) 0 ++ newline) /\
  celsiusToFahrenheit 0 = 32%float /\ celsiusToKelvin 0 = 273%float.
Proof.
  intros Ha Hl Hk Hu Hd Hs Hb Hvalid Hno.
  assert (Hw : weatherResult env (ServiceB.Localidade viaCEP) = (0%float, None)).
  { rewrite weatherResult_cases.
    apply String.eqb_neq in Hk. rewrite Hk, Hu, Hd, Hs, Hb. cbn [negb Z.eqb].
    unfold jsonrt.Unmarshal. rewrite Hvalid. cbn [jsonrt.intoStruct].
    rewrite object_no_field; [reflexivity|].
    intros k x Hin. unfold ServiceB.WeatherAPIResponse_fields.
    cbn [jsonrt.findField fst]. now rewrite (Hno k x Hin). }
  split; [exact Hw|]. split; [|split; vm_compute; reflexivity].
  rewrite (handleWeather_accepted_text env r req Ha), Hl, Hw.
  now rewrite weatherBody_finite by (vm_compute; reflexivity).
Qed.

Lemma missing_temperature_is_zero_witness :
  let env := Scenario.world "key" Scenario.found
               (Scenario.answer 200 (Scenario.object1 "error" "no data")) in
  weatherResult env "Recife" = (0%float, None) /\
  ServiceB.response env (Scenario.post "/weather" "50030230")
    = (200%Z, weatherJSON env "Recife" 0 ++ newline) /\
  celsiusToFahrenheit 0 = 32%float /\ celsiusToKelvin 0 = 273%float.
Proof.
  cbv zeta.
  apply (missing_temperature_is_zero _ _ (mkCEPRequest "50030230")
           (ServiceB.mkViaCEP EmptyString EmptyString EmptyString EmptyString
                              "Recife" EmptyString EmptyString)
           (http.mkResponse 200 (Scenario.object1 "error" "no data", None))
           (Scenario.object1 "error" "no data")
           [("error", json.Str "no data")]).
  - repeat split; vm_compute; reflexivity.
  - vm_compute. reflexivity.
  - discriminate.
  - reflexivity.
  - reflexivity.
  - reflexivity.
  - reflexivity.
  - vm_compute. reflexivity.
  - intros k x [[= <- <-]|[]]. reflexivity.
Defined.

(** ** Bytes after the first value of a request body *)

Lemma object1_then (name value rest : string) :
  Scenario.object1 name value ++ rest =
  "{" ++ String dquote (name ++ String dquote
           (":" ++ String dquote (value ++ String dquote ("}" ++ rest)))).
Proof.
  unfold Scenario.object1, jsonrt.q.
  rewrite !append_assoc. cbn [append]. rewrite ?append_assoc. reflexivity.
Qed.

Lemma readValue_object1_then (name value rest : string) :
  allb plain name = true -> allb plain value = true ->
  json.readValue (Scenario.object1 name value ++ rest)
  = Some (json.Object [(name, json.Str value)]).
Proof.
  intros Hn Hv. unfold json.readValue, json.fuelFor.
  rewrite object1_then. cbn [String.length append].
  match goal with
  | |- context [S (2 * S ?n)] =>
      replace (S (2 * S n)) with (S (S (S (2 * n)))) by lia
  end.
  now rewrite (parseValue_object1 _ name value rest Hn Hv).
Qed.

(** X21. The decoder of the request body reads the first JSON value and
    leaves the bytes after it unread: whatever follows the object with a
    valid postal code, both handlers give the answer they give to the
    object alone. *)
Theorem bytes_after_body_ignored
  (env : Env) (method path : string) (h : http.Header) (cep rest : string) :
  ServiceA.validateCEP cep = true ->
  ServiceA.response env (http.mkRequest method path h (cepJSON cep ++ rest))
    = ServiceA.response env (http.mkRequest method path h (cepJSON cep)) /\
  ServiceB.response env (http.mkRequest method path h (cepJSON cep ++ rest))
    = ServiceB.response env (http.mkRequest method path h (cepJSON cep)).
Proof.
  intro Hv.
  destruct (String.eqb method http.MethodPost) eqn:Hm.
  2: { apply String.eqb_neq in Hm. unfold ServiceA.response, ServiceB.response.
       now rewrite !handleCEP_not_post_state, !handleWeather_not_post_state. }
  apply String.eqb_eq in Hm.
  pose proof Hv as Hdig. rewrite validateCEP_eq in Hdig.
  apply andb_true_iff in Hdig as [_ Hdig].
  apply (allb_impl _ _ _ digit_plain) in Hdig.
  assert (H1 : accepted (http.mkRequest method path h (cepJSON cep ++ rest))
                        (mkCEPRequest cep)).
  { repeat split; [exact Hm| |exact Hv].
    cbn [http.Body]. unfold jsonrt.Decode, cepJSON.
    now rewrite (readValue_object1_then "cep" cep rest eq_refl Hdig). }
  assert (H2 : accepted (http.mkRequest method path h (cepJSON cep))
                        (mkCEPRequest cep)).
  { repeat split; [exact Hm| |exact Hv].
    cbn [http.Body]. unfold jsonrt.Decode, cepJSON.
    now rewrite (readValue_object1 "cep" cep eq_refl Hdig). }
  split.
  - destruct (handleCEP_accepted env _ _ H1) as (-> & _).
    destruct (handleCEP_accepted env _ _ H2) as (-> & _). reflexivity.
  - now rewrite (handleWeather_accepted env _ _ H1),
                (handleWeather_accepted env _ _ H2).
Qed.

Lemma bytes_after_body_ignored_witness :
  let env := Scenario.world "key" Scenario.found Scenario.sunny in
  ServiceA.response env
    (http.mkRequest "POST" "/cep" [] (cepJSON "50030230" ++ "} not JSON"))
    = ServiceA.response env (http.mkRequest "POST" "/cep" [] (cepJSON "50030230")) /\
  ServiceB.response env
    (http.mkRequest "POST" "/cep" [] (cepJSON "50030230" ++ "} not JSON"))
    = ServiceB.response env (http.mkRequest "POST" "/cep" [] (cepJSON "50030230")).
Proof.
  cbv zeta. apply bytes_after_body_ignored. reflexivity.
Defined.
